(** * VERDICOM PRO: the pixel pipeline of [verdicom_pro.py]

    A shallow embedding of the numeric core of the viewer
    ([get_pixel_array], [default_window], [apply_window], [to_pil] and the
    windowing and statistics steps of [main]) together with the properties
    its specification states about them.

    Conventions of the embedding.
    - Calibrated samples are exact rationals ([Q]): the rounding of NumPy's
      float32/float64 arithmetic is abstracted away, so that the results do
      not depend on the evaluation order NumPy picks internally.  The one
      place where floating point leaves the rationals, a division by zero,
      is kept explicit ([NonFinite]): NumPy warns there and does not raise.
      The properties below are stated where the rounding does not decide
      them: formulas that the code computes up to rounding, order between
      percentiles, shapes, exceptions, and pixel values at windows and
      samples that binary32 holds exactly.
    - A NumPy array is its shape and its elements in row-major order.
    - Python exceptions are an explicit [result]; a function whose Python
      body cannot raise has a plain return type.
    - [Np] and [Pil] hold the library calls the source makes (NumPy, Pillow),
      written after the documented behaviour of those libraries under their
      default arguments; [Pydicom] holds the attributes of a dataset the
      source reads. *)

From Stdlib Require Import ZArith QArith Qround Qminmax.
From Stdlib Require Import Reals Qreals Lra.
From Stdlib Require Import List Bool Lia Lqa Permutation Sorted.
Import ListNotations.

Open Scope Q_scope.

(** ** Python: exceptions *)

Module Py.

Inductive exn : Type :=
| AttributeError
| TypeError
| IndexError
| ValueError.

Inductive result (A : Type) : Type :=
| Returns (a : A)
| Raises (e : exn).

Arguments Returns {A} a.
Arguments Raises {A} e.

Definition bind {A B : Type} (m : result A) (k : A -> result B) : result B :=
  match m with
  | Returns a => k a
  | Raises e => Raises e
  end.

(** The built-in [max(a, b)]: the first argument unless the second is
    strictly greater. *)
Definition max (a b : Q) : Q :=
  if Qle_bool b a then a else b.

End Py.

Import Py.

Notation "x <- m ;; k" := (Py.bind m (fun x => k))
  (at level 61, m at next level, right associativity).

(** ** NumPy: arrays and the calls the source makes *)

Module Np.

Record ndarray (A : Type) : Type := mk_ndarray {
  shape : list nat;
  data : list A
}.

Arguments mk_ndarray {A} shape data.
Arguments shape {A} n.
Arguments data {A} n.

Definition ndim {A} (a : ndarray A) : nat := length (shape a).

Definition size {A} (a : ndarray A) : nat := length (data a).

(** Elementwise application: the shape is kept. *)
Definition elementwise {A B} (f : A -> B) (a : ndarray A) : ndarray B :=
  mk_ndarray (shape a) (map f (data a)).

Definition ravel {A} (a : ndarray A) : list A := data a.

(** The result of a floating-point operation that may leave the finite
    numbers: a division by zero gives nan or an infinity, with a warning. *)
Inductive scalar (A : Type) : Type :=
| Finite (x : A)
| NonFinite.

Arguments Finite {A} x.
Arguments NonFinite {A}.

Definition scalar_map {A B} (f : A -> B) (s : scalar A) : scalar B :=
  match s with
  | Finite x => Finite (f x)
  | NonFinite => NonFinite
  end.

(** [a / b] on floats. *)
Definition divide (a b : Q) : scalar Q :=
  if Qeq_bool b 0 then NonFinite else Finite (a / b).

(** [arr.astype(np.float32)] on an integer array. *)
Definition astype_float (a : ndarray Z) : ndarray Q :=
  elementwise inject_Z a.

(** [np.clip(a, a_min, a_max)] is [minimum(a_max, maximum(a, a_min))]. *)
Definition clip1 (a_min a_max x : Q) : Q :=
  Qmin a_max (Qmax x a_min).

Definition clip (a : ndarray Q) (a_min a_max : Q) : ndarray Q :=
  elementwise (clip1 a_min a_max) a.

(** [np.round]: to the nearest integer, a tie to the even one. *)
Definition round_half_even (x : Q) : Z :=
  let f := Qfloor x in
  match Qcompare (x - inject_Z f) (1 # 2) with
  | Lt => f
  | Gt => (f + 1)%Z
  | Eq => if Z.even f then f else (f + 1)%Z
  end.

Definition round (x : scalar Q) : scalar Q :=
  scalar_map (fun q => inject_Z (round_half_even q)) x.

(** Truncation toward zero, the float-to-integer conversion of C. *)
Definition trunc (x : Q) : Z :=
  Z.quot (Qnum x) (Zpos (Qden x)).

(** [np.uint8(x)] on a float: truncate, keep the low 8 bits.  A nan or an
    infinity has no defined image; the usual platforms give 0. *)
Definition uint8 (x : scalar Q) : Z :=
  match x with
  | Finite q => (trunc q mod 256)%Z
  | NonFinite => 0%Z
  end.

(** [k - a] in uint8 arithmetic. *)
Definition rsub_uint8 (k : Z) (a : ndarray Z) : ndarray Z :=
  elementwise (fun v => ((k - v) mod 256)%Z) a.

(** [np.clip(a, lo, hi)] on an integer array. *)
Definition clip_int (a : ndarray Z) (lo hi : Z) : ndarray Z :=
  elementwise (fun v => Z.min hi (Z.max v lo)) a.

Definition uint8_int (a : ndarray Z) : ndarray Z :=
  elementwise (fun v => (v mod 256)%Z) a.

(** [np.squeeze]: the axes of length one are removed. *)
Definition squeeze {A} (a : ndarray A) : ndarray A :=
  mk_ndarray (filter (fun d => negb (Nat.eqb d 1)) (shape a)) (data a).

(** Sorting, as the percentile computation needs it. *)
Fixpoint insert (x : Q) (l : list Q) : list Q :=
  match l with
  | [] => [x]
  | y :: l' => if Qle_bool x y then x :: l else y :: insert x l'
  end.

Fixpoint sort (l : list Q) : list Q :=
  match l with
  | [] => []
  | x :: l' => insert x (sort l')
  end.

Definition sum (l : list Q) : Q := fold_right Qplus 0 l.

(** [np.percentile(a, q)] with the default method, linear interpolation:
    over the sorted flattened array of [n] elements the value at the
    virtual index [(n - 1) * q / 100], interpolated between its two
    neighbours.  A [q] outside [0, 100] is a [ValueError]; an empty array
    has no percentile (an [IndexError] here). *)
Definition percentile (a : ndarray Q) (q : Q) : result Q :=
  if negb (Qle_bool 0 q && Qle_bool q 100) then Raises ValueError
  else
    match sort (ravel a) with
    | [] => Raises IndexError
    | (x0 :: _) as s =>
        let n := Z.of_nat (length s) in
        let virtual_index := inject_Z (n - 1) * q / 100 in
        let j := Qfloor virtual_index in
        let gamma := virtual_index - inject_Z j in
        let below := nth (Z.to_nat j) s x0 in
        let above := nth (Z.to_nat (Z.min (j + 1) (n - 1))) s x0 in
        Returns (below + (above - below) * gamma)
    end.

(** [np.min] and [np.max]: a [ValueError] on an empty array. *)
Definition min (l : list Q) : result Q :=
  match l with
  | [] => Raises ValueError
  | x :: l' => Returns (fold_left Qmin l' x)
  end.

Definition max (l : list Q) : result Q :=
  match l with
  | [] => Raises ValueError
  | x :: l' => Returns (fold_left Qmax l' x)
  end.

(** [np.mean]: the sum over the number of elements (nan on an empty
    array). *)
Definition mean (l : list Q) : scalar Q :=
  divide (sum l) (inject_Z (Z.of_nat (length l))).

(** [np.var(a, ddof)]: the mean is taken first, then the squared deviations
    are summed and divided by [N - ddof]. *)
Definition var (ddof : nat) (l : list Q) : scalar Q :=
  match mean l with
  | Finite m =>
      divide (sum (map (fun x => (x - m) * (x - m)) l))
             (inject_Z (Z.of_nat (length l) - Z.of_nat ddof))
  | NonFinite => NonFinite
  end.

(** [np.std(a, ddof)]: the square root of the variance, a real number. *)
Definition std (ddof : nat) (l : list Q) : scalar R :=
  scalar_map (fun v => sqrt (Q2R v)) (var ddof l).

End Np.

Import Np.

(** ** Pillow: images built from arrays *)

Module Pil.

Inductive mode : Type := L | LA | RGB | RGBA.

Definition bands (m : mode) : nat :=
  match m with
  | L => 1
  | LA => 2
  | RGB => 3
  | RGBA => 4
  end.

(** An image: its mode, its size as (width, height) and its samples. *)
Record Image : Type := mk_Image {
  im_mode : mode;
  im_size : nat * nat;
  im_data : list Z
}.

(** The modes [Image.fromarray] knows for a uint8 array, by the trailing
    axes [shape[2:]] of the array. *)
Definition typemap (trailing : list nat) : result mode :=
  match trailing with
  | [] => Returns L
  | [2%nat] => Returns LA
  | [3%nat] => Returns RGB
  | [4%nat] => Returns RGBA
  | _ => Raises TypeError
  end.

Definition ndmax (m : mode) : nat :=
  match m with
  | L => 2
  | RGB => 3
  | _ => 4
  end.

(** [Image.fromarray(obj, mode=None)] on a uint8 array. *)
Definition fromarray (obj : ndarray Z) (md : option mode) : result Image :=
  m <- match md with
       | Some m => Returns m
       | None => typemap (skipn 2 (shape obj))
       end ;;
  if (ndmax m <? ndim obj)%nat then Raises ValueError
  else
    match shape obj with
    | [] => Raises IndexError
    | [n] => Returns (mk_Image m (1%nat, n) (data obj))
    | h :: w :: _ => Returns (mk_Image m (w, h) (data obj))
    end.

End Pil.

(** ** pydicom: the attributes of a dataset the source reads *)

Module Pydicom.

(** The value of a numeric data element: one number, or a [MultiValue].
    An element that is present with an empty value is outside the model. *)
Inductive value : Type :=
| Single (x : Q)
| MultiValue (l : list Q).

(** [None] stands for an attribute the dataset does not have. *)
Record FileDataset : Type := mk_FileDataset {
  pixel_array : option (ndarray Z);
  RescaleIntercept : option value;
  RescaleSlope : option value;
  WindowCenter : option value;
  WindowWidth : option value
}.

Definition hasattr (a : option value) : bool :=
  match a with
  | Some _ => true
  | None => false
  end.

Definition getattr (a : option value) (default : value) : value :=
  match a with
  | Some v => v
  | None => default
  end.

Definition isinstance_MultiValue (v : value) : bool :=
  match v with
  | MultiValue _ => true
  | Single _ => false
  end.

(** [ds.Name]: an [AttributeError] when the dataset lacks the element. *)
Definition getattribute (a : option value) : result value :=
  match a with
  | Some v => Returns v
  | None => Raises AttributeError
  end.

(** [float(v)]: a [MultiValue] is no number. *)
Definition float (v : value) : result Q :=
  match v with
  | Single x => Returns x
  | MultiValue _ => Raises TypeError
  end.

(** [v[i]] *)
Definition getitem (v : value) (i : nat) : result value :=
  match v with
  | MultiValue l =>
      match nth_error l i with
      | Some x => Returns (Single x)
      | None => Raises IndexError
      end
  | Single _ => Raises TypeError
  end.

(** [ds.pixel_array]: an [AttributeError] when the dataset has no pixel
    data.  Pixel data that is present and fails to decode is outside the
    model. *)
Definition get_pixel_data (ds : FileDataset) : result (ndarray Z) :=
  match pixel_array ds with
  | Some a => Returns a
  | None => Raises AttributeError
  end.

End Pydicom.

Import Pydicom.

(** ** The source *)

(** [get_pixel_array] (lines 114-122): the pixel array as floats, rescaled
    by the slope and the intercept of the dataset, 1 and 0 when absent. *)
Definition get_pixel_array (ds : FileDataset) : result (ndarray Q) :=
  raw <- get_pixel_data ds ;;
  let arr := astype_float raw in
  intercept <- float (getattr (RescaleIntercept ds) (Single 0)) ;;
  slope <- float (getattr (RescaleSlope ds) (Single 1)) ;;
  let arr := elementwise (fun x => x * slope + intercept) arr in
  Returns arr.

(** [default_window] (lines 124-148): WindowCenter and WindowWidth of the
    dataset when it has both, the first value of a multi-valued one;
    otherwise a window computed from the 1st and 99th percentiles. *)
Definition default_window (ds : FileDataset) : result (Q * Q) :=
  if hasattr (WindowCenter ds) && hasattr (WindowWidth ds) then
    wc <- getattribute (WindowCenter ds) ;;
    ww <- getattribute (WindowWidth ds) ;;
    wc <- (if isinstance_MultiValue wc
           then (w0 <- getitem wc 0 ;; float w0)
           else float wc) ;;
    ww <- (if isinstance_MultiValue ww
           then (w0 <- getitem ww 0 ;; float w0)
           else float ww) ;;
    Returns (wc, ww)
  else
    (* fallback: percentiles of the pixel array *)
    arr <- get_pixel_array ds ;;
    p1 <- percentile arr 1 ;;
    p99 <- percentile arr 99 ;;
    let center := (p99 + p1) / 2 in
    let width := Py.max 1 (p99 - p1) in
    Returns (center, width).

(** [apply_window] (lines 150-160): the window [c - w/2, c + w/2] mapped
    onto 0..255, with clipping. *)
Definition apply_window (img : ndarray Q) (center width : Q) : ndarray Z :=
  let lower := center - (width / 2) in
  let upper := center + (width / 2) in
  let img_w := clip img lower upper in
  let img_norm := elementwise (fun x => divide (x - lower) (upper - lower)) img_w in
  let img_8 :=
    elementwise
      (fun x => uint8 (Np.round (scalar_map (fun v => v * 255) x))) img_norm in
  img_8.

(** [to_pil] (lines 162-176): a 2-D array as an L image, a 3-D array with
    three channels as it is, anything else squeezed and clamped first. *)
Definition to_pil (img_array : ndarray Z) : result Pil.Image :=
  if (ndim img_array =? 2)%nat then
    Pil.fromarray img_array (Some Pil.L)
  else if ((ndim img_array =? 3) && (nth 2 (shape img_array) 0 =? 3))%nat then
    Pil.fromarray img_array None
  else
    let arr := squeeze img_array in
    let arr := uint8_int (clip_int arr 0 255) in
    Pil.fromarray arr None.

(** The windowing step of [main] (lines 355-357): the window, then the
    inversion of the uint8 raster when [invert] is set. *)
Definition main_img_8 (arr : ndarray Q) (wc_slider ww_slider : Q)
    (invert : bool) : ndarray Z :=
  let img_8 := apply_window arr wc_slider ww_slider in
  if invert then rsub_uint8 255 img_8 else img_8.

(** The quick statistics of [main] (lines 393-398); [np.std] is called
    with its default [ddof = 0]. *)
Record Statistics : Type := mk_Statistics {
  p10 : Q;
  p50 : Q;
  p90 : Q;
  mn : Q;
  mx : Q;
  mean : scalar Q;
  std : scalar R
}.

Definition main_statistics (arr : ndarray Q) : result Statistics :=
  let arr_flat := mk_ndarray [length (ravel arr)] (ravel arr) in
  p10 <- percentile arr_flat 10 ;;
  p50 <- percentile arr_flat 50 ;;
  p90 <- percentile arr_flat 90 ;;
  mn <- Np.min (data arr_flat) ;;
  mx <- Np.max (data arr_flat) ;;
  let mean := Np.mean (data arr_flat) in
  let std := Np.std 0 (data arr_flat) in
  Returns (mk_Statistics p10 p50 p90 mn mx mean std).

(** The image [main] shows (lines 355-360) when the equalisation box is
    left unchecked: the windowed raster, inverted or not, through [to_pil]. *)
Definition main_pil_img (arr : ndarray Q) (wc_slider ww_slider : Q)
    (invert : bool) : result Pil.Image :=
  to_pil (main_img_8 arr wc_slider ww_slider invert).

(** ** Streamlit: the arguments of a slider *)

Module St.

Record slider : Type := mk_slider {
  min_value : Q;
  max_value : Q;
  value : Q;
  step : Q
}.

End St.

(** The arguments [main] gives to its two sliders (lines 340-343), from the
    calibrated samples and the default window. *)
Definition main_wc_slider (arr : ndarray Q) (default_center default_width : Q)
  : result St.slider :=
  lo <- Np.min (ravel arr) ;;
  hi <- Np.max (ravel arr) ;;
  Returns (St.mk_slider lo hi default_center
             (if negb (Qeq_bool default_width 0)
              then default_width / 100 else 1)).

Definition main_ww_slider (arr : ndarray Q) (default_center default_width : Q)
  : result St.slider :=
  hi <- Np.max (ravel arr) ;;
  lo <- Np.min (ravel arr) ;;
  Returns (St.mk_slider 1 (hi - lo + 1) default_width
             (Py.max 1 (default_width / 100))).

(** * Properties *)

(** ** The built-in [max] *)

Lemma py_max_floor (a b : Q) : a <= Py.max a b.
Proof.
  unfold Py.max. destruct (Qle_bool b a) eqn:E.
  - apply Qle_refl.
  - destruct (Qlt_le_dec a b) as [H | H].
    + apply Qlt_le_weak; exact H.
    + apply Qle_bool_iff in H. congruence.
Qed.

Lemma py_max_first (a b : Q) : b <= a -> Py.max a b = a.
Proof.
  intro H. unfold Py.max. apply Qle_bool_iff in H. now rewrite H.
Qed.

Lemma py_max_second (a b : Q) : a < b -> Py.max a b = b.
Proof.
  intro H. unfold Py.max. destruct (Qle_bool b a) eqn:E; [ | reflexivity].
  apply Qle_bool_iff in E. exfalso. apply (Qlt_not_le _ _ H E).
Qed.

(** ** Rounding and the cast to uint8 *)

Lemma round_half_even_bounds (x : Q) (n m : Z) :
  inject_Z n <= x -> x <= inject_Z m ->
  (n <= round_half_even x <= m)%Z.
Proof.
  intros Hn Hm.
  assert (Hf1 : (n <= Qfloor x)%Z).
  { rewrite <- (Qfloor_Z n). apply Qfloor_resp_le; exact Hn. }
  assert (Hf2 : (Qfloor x <= m)%Z).
  { rewrite <- (Qfloor_Z m). apply Qfloor_resp_le; exact Hm. }
  assert (Hup : x - inject_Z (Qfloor x) >= 1 # 2 -> (Qfloor x + 1 <= m)%Z).
  { intro Hfrac.
    destruct (Z.eq_dec (Qfloor x) m) as [E | E]; [ | lia].
    exfalso. rewrite E in Hfrac. lra. }
  unfold round_half_even.
  destruct (Qcompare (x - inject_Z (Qfloor x)) (1 # 2)) eqn:C.
  - apply Qeq_alt in C.
    destruct (Z.even (Qfloor x)); [lia | ].
    assert ((Qfloor x + 1 <= m)%Z) by (apply Hup; lra). lia.
  - lia.
  - apply Qgt_alt in C.
    assert ((Qfloor x + 1 <= m)%Z) by (apply Hup; lra). lia.
Qed.

Lemma trunc_inject_Z (z : Z) : trunc (inject_Z z) = z.
Proof.
  unfold trunc; simpl. apply Z.quot_1_r.
Qed.

Lemma uint8_round_in_range (x : Q) :
  0 <= x -> x <= 255 ->
  uint8 (Np.round (Finite x)) = round_half_even x /\
  (0 <= round_half_even x <= 255)%Z.
Proof.
  intros H0 H255.
  assert (B : (0 <= round_half_even x <= 255)%Z).
  { apply round_half_even_bounds; assumption. }
  split; [ | exact B].
  simpl. rewrite trunc_inject_Z. apply Z.mod_small. lia.
Qed.

(** ** Clipping *)

Lemma clip1_bounds (lo hi x : Q) :
  lo <= hi -> lo <= clip1 lo hi x /\ clip1 lo hi x <= hi.
Proof.
  intro H. unfold clip1. split.
  - apply Q.min_glb; [exact H | apply Q.le_max_r].
  - apply Q.le_min_l.
Qed.

Lemma clip1_below (lo hi x : Q) : lo <= hi -> x <= lo -> clip1 lo hi x == lo.
Proof.
  intros H Hx. unfold clip1.
  rewrite (Q.max_r x lo Hx). apply Q.min_r; exact H.
Qed.

Lemma clip1_above (lo hi x : Q) : hi <= x -> clip1 lo hi x == hi.
Proof.
  intros Hx. unfold clip1.
  apply Q.min_l. apply Qle_trans with x; [exact Hx | apply Q.le_max_l].
Qed.

Lemma clip1_inside (lo hi x : Q) : lo <= x -> x <= hi -> clip1 lo hi x == x.
Proof.
  intros H1 H2. unfold clip1.
  rewrite (Q.max_l x lo H1). apply Q.min_r; exact H2.
Qed.

(** When the bounds are crossed every sample becomes [a_max]. *)
Lemma clip1_crossed (lo hi x : Q) : hi <= lo -> clip1 lo hi x == hi.
Proof.
  intros H. unfold clip1.
  apply Q.min_l. apply Qle_trans with lo; [exact H | apply Q.le_max_r].
Qed.

(** ** Division *)

Lemma divide_finite (a b : Q) : ~ b == 0 -> divide a b = Finite (a / b).
Proof.
  intro H. unfold divide. destruct (Qeq_bool b 0) eqn:E; [ | reflexivity].
  apply Qeq_bool_iff in E. contradiction.
Qed.

Lemma divide_by_zero (a b : Q) : b == 0 -> divide a b = NonFinite.
Proof.
  intro H. unfold divide. apply Qeq_bool_iff in H. now rewrite H.
Qed.

(** ** The window, sample by sample *)

#[global] Instance round_half_even_comp : Proper (Qeq ==> eq) round_half_even.
Proof.
  intros x y E. unfold round_half_even.
  rewrite (Qfloor_comp _ _ E).
  assert (C : Qcompare (x - inject_Z (Qfloor y)) (1 # 2)
              = Qcompare (y - inject_Z (Qfloor y)) (1 # 2)).
  { apply Qcompare_comp; [rewrite E; reflexivity | reflexivity]. }
  rewrite C. reflexivity.
Qed.

(** The normalised samples of [apply_window], before scaling and rounding:
    the value of [img_norm] in the source. *)
Definition apply_window_norm (img : ndarray Q) (center width : Q)
  : ndarray (scalar Q) :=
  let lower := center - (width / 2) in
  let upper := center + (width / 2) in
  let img_w := clip img lower upper in
  elementwise (fun x => divide (x - lower) (upper - lower)) img_w.

(** What [apply_window] makes of one sample. *)
Definition window_value (center width x : Q) : Z :=
  let lower := center - (width / 2) in
  let upper := center + (width / 2) in
  uint8 (Np.round (scalar_map (fun v => v * 255)
                     (divide (clip1 lower upper x - lower) (upper - lower)))).

Lemma apply_window_from_norm (img : ndarray Q) (center width : Q) :
  apply_window img center width =
  elementwise (fun x => uint8 (Np.round (scalar_map (fun v => v * 255) x)))
              (apply_window_norm img center width).
Proof. reflexivity. Qed.

Lemma apply_window_data (img : ndarray Q) (center width : Q) :
  data (apply_window img center width) = map (window_value center width) (data img).
Proof.
  unfold apply_window, clip, elementwise; simpl.
  rewrite !map_map. reflexivity.
Qed.

Lemma apply_window_shape (img : ndarray Q) (center width : Q) :
  shape (apply_window img center width) = shape img.
Proof. reflexivity. Qed.

Lemma window_value_positive_width (center width x : Q) :
  0 < width ->
  let lower := center - (width / 2) in
  let upper := center + (width / 2) in
  window_value center width x
  = round_half_even ((clip1 lower upper x - lower) / (upper - lower) * 255)
  /\ (0 <= window_value center width x <= 255)%Z.
Proof.
  intros Hw lower upper.
  assert (Hspan : upper - lower == width) by (unfold lower, upper; field).
  assert (Hnz : ~ upper - lower == 0) by (rewrite Hspan; lra).
  assert (Hle : lower <= upper) by lra.
  destruct (clip1_bounds lower upper x Hle) as [B1 B2].
  set (n := (clip1 lower upper x - lower) / (upper - lower) * 255).
  assert (Hn : 0 <= n /\ n <= 255).
  { unfold n. rewrite Hspan.
    assert (E : (clip1 lower upper x - lower) / width * 255
                == (clip1 lower upper x - lower) * (255 / width))
      by (field; lra).
    rewrite E.
    assert (Hpos : 0 < 255 / width).
    { apply Qlt_shift_div_l; [exact Hw | lra]. }
    split.
    - apply Qmult_le_0_compat; lra.
    - assert (E2 : 255 == width * (255 / width)) by (field; lra).
      rewrite E2 at 2.
      apply Qmult_le_compat_r; lra. }
  destruct Hn as [Hn0 Hn255].
  destruct (uint8_round_in_range n Hn0 Hn255) as [U R].
  unfold window_value. fold lower upper.
  rewrite (divide_finite _ _ Hnz). simpl scalar_map. fold n.
  rewrite U. split; [reflexivity | exact R].
Qed.

Lemma window_value_zero_width (center width x : Q) :
  width == 0 -> window_value center width x = 0%Z.
Proof.
  intro Hw. unfold window_value.
  rewrite divide_by_zero; [reflexivity | ].
  rewrite Hw. field.
Qed.

Lemma window_value_negative_width (center width x : Q) :
  width < 0 -> window_value center width x = 255%Z.
Proof.
  intro Hw. unfold window_value.
  set (lower := center - width / 2). set (upper := center + width / 2).
  assert (Hspan : upper - lower == width) by (unfold lower, upper; field).
  assert (Hnz : ~ upper - lower == 0) by (rewrite Hspan; lra).
  rewrite (divide_finite _ _ Hnz). simpl scalar_map.
  assert (Hc : clip1 lower upper x == upper) by (apply clip1_crossed; lra).
  assert (E : (clip1 lower upper x - lower) / (upper - lower) * 255 == 255).
  { rewrite Hc. field. exact Hnz. }
  set (n := (clip1 lower upper x - lower) / (upper - lower) * 255) in *.
  assert (H0 : 0 <= n) by (rewrite E; lra).
  assert (H255 : n <= 255) by (rewrite E; lra).
  destruct (uint8_round_in_range n H0 H255) as [U _].
  rewrite U, E. reflexivity.
Qed.

Lemma window_value_range (center width x : Q) :
  (0 <= window_value center width x <= 255)%Z.
Proof.
  destruct (Q_dec width 0) as [[H | H] | H].
  - rewrite (window_value_negative_width _ _ _ H). lia.
  - apply (window_value_positive_width center width x H).
  - rewrite (window_value_zero_width _ _ _ H). lia.
Qed.

(** The window of a positive width: [lower < upper], the samples below it
    become 0, the samples above it 255, and the samples inside are scaled
    linearly. *)
Section PositiveWidth.

Variables center width : Q.
Hypothesis width_positive : 0 < width.

Lemma window_span : center + width / 2 - (center - width / 2) == width.
Proof. field. Qed.

Lemma window_bounds_ordered : center - width / 2 < center + width / 2.
Proof.
  pose proof window_span as Hs. lra.
Qed.

Lemma window_value_below (x : Q) :
  x <= center - width / 2 -> window_value center width x = 0%Z.
Proof.
  intros Hx.
  destruct (window_value_positive_width center width x width_positive)
    as [V _].
  rewrite V.
  assert (E : (clip1 (center - width / 2) (center + width / 2) x
               - (center - width / 2))
              / (center + width / 2 - (center - width / 2)) * 255 == 0).
  { pose proof window_bounds_ordered as Ho.
    pose proof window_span as Hs.
    rewrite clip1_below; [ | lra | exact Hx]. rewrite Hs. field. lra. }
  rewrite E. reflexivity.
Qed.

Lemma window_value_above (x : Q) :
  center + width / 2 <= x -> window_value center width x = 255%Z.
Proof.
  intros Hx.
  destruct (window_value_positive_width center width x width_positive)
    as [V _].
  rewrite V.
  assert (E : (clip1 (center - width / 2) (center + width / 2) x
               - (center - width / 2))
              / (center + width / 2 - (center - width / 2)) * 255 == 255).
  { pose proof window_span as Hs.
    rewrite clip1_above; [ | exact Hx]. rewrite Hs. field. lra. }
  rewrite E. reflexivity.
Qed.

Lemma window_value_inside (x : Q) :
  center - width / 2 <= x -> x <= center + width / 2 ->
  window_value center width x
  = round_half_even ((x - (center - width / 2)) / width * 255).
Proof.
  intros H1 H2.
  destruct (window_value_positive_width center width x width_positive)
    as [V _].
  rewrite V. apply round_half_even_comp.
  rewrite clip1_inside; [ | exact H1 | exact H2].
  rewrite window_span. reflexivity.
Qed.

End PositiveWidth.

(** ** Sorting *)

Lemma insert_perm (x : Q) (l : list Q) : Permutation (insert x l) (x :: l).
Proof.
  induction l as [ | y l IH]; simpl.
  - apply Permutation_refl.
  - destruct (Qle_bool x y).
    + apply Permutation_refl.
    + apply perm_trans with (y :: x :: l).
      * apply perm_skip; exact IH.
      * apply perm_swap.
Qed.

Lemma sort_perm (l : list Q) : Permutation (sort l) l.
Proof.
  induction l as [ | x l IH]; simpl.
  - apply perm_nil.
  - apply perm_trans with (x :: sort l).
    + apply insert_perm.
    + apply perm_skip; exact IH.
Qed.

Lemma insert_sorted (x : Q) (l : list Q) :
  Sorted Qle l -> Sorted Qle (insert x l).
Proof.
  induction l as [ | y l IH]; intro S; simpl.
  - repeat constructor.
  - destruct (Qle_bool x y) eqn:E.
    + apply Qle_bool_iff in E. constructor; [exact S | constructor; exact E].
    + assert (Hyx : y <= x).
      { destruct (Qlt_le_dec y x) as [H | H]; [apply Qlt_le_weak; exact H | ].
        apply Qle_bool_iff in H. congruence. }
      inversion S as [ | ? ? S' Hd]; subst.
      constructor; [apply IH; exact S' | ].
      destruct l as [ | z l]; simpl.
      * constructor; exact Hyx.
      * destruct (Qle_bool x z); constructor; [exact Hyx | ].
        inversion Hd; assumption.
Qed.

Lemma sort_sorted (l : list Q) : Sorted Qle (sort l).
Proof.
  induction l as [ | x l IH]; simpl.
  - constructor.
  - apply insert_sorted; exact IH.
Qed.

Lemma sort_length (l : list Q) : length (sort l) = length l.
Proof. apply Permutation_length, sort_perm. Qed.

Lemma sort_In (l : list Q) (x : Q) : In x (sort l) <-> In x l.
Proof.
  split; apply Permutation_in; [ | apply Permutation_sym]; apply sort_perm.
Qed.

Lemma sort_nonempty (l : list Q) :
  l <> [] -> exists x0 s, sort l = x0 :: s.
Proof.
  intro H. destruct (sort l) as [ | x0 s] eqn:E.
  - exfalso. apply H. apply length_zero_iff_nil.
    rewrite <- sort_length, E. reflexivity.
  - eauto.
Qed.

(** ** Percentiles *)

(** The position a percentile is read at: the virtual index
    [(n - 1) * q / 100] in a sorted array of [n] elements. *)
Definition virtual_index (n : nat) (q : Q) : Q :=
  inject_Z (Z.of_nat n - 1) * q / 100.

(** The linear-interpolation percentile, stated over any sorted arrangement
    of the samples: the element below the virtual index plus the fraction of
    the step to the next element. *)
Definition linear_percentile (l : list Q) (q p : Q) : Prop :=
  exists s,
    Permutation s l /\ Sorted Qle s /\
    let h := virtual_index (length l) q in
    let j := Qfloor h in
    let below := nth (Z.to_nat j) s 0 in
    let above := nth (Z.to_nat (Z.min (j + 1) (Z.of_nat (length l) - 1))) s 0 in
    (Z.to_nat j < length s)%nat /\
    p == below + (above - below) * (h - inject_Z j).

Lemma virtual_index_bounds (n : nat) (q : Q) :
  (0 < n)%nat -> 0 <= q -> q <= 100 ->
  (0 <= Qfloor (virtual_index n q) <= Z.of_nat n - 1)%Z.
Proof.
  intros Hn H0 H100.
  set (k := (Z.of_nat n - 1)%Z).
  assert (Hk : 0 <= inject_Z k).
  { change 0 with (inject_Z 0). rewrite <- Zle_Qle. unfold k. lia. }
  assert (Hq : 0 <= q / 100 /\ q / 100 <= 1).
  { split.
    - apply Qle_shift_div_l; lra.
    - apply Qle_shift_div_r; lra. }
  assert (E : virtual_index n q == inject_Z k * (q / 100)).
  { unfold virtual_index. fold k. field. }
  assert (B0 : 0 <= virtual_index n q).
  { rewrite E. apply Qmult_le_0_compat; tauto. }
  assert (B1 : virtual_index n q <= inject_Z k).
  { rewrite E. destruct Hq as [Hq0 Hq1]. clear E B0.
    set (a := inject_Z k) in *. set (b := q / 100) in *.
    setoid_replace a with (a * 1) at 2 by ring.
    rewrite (Qmult_comm a b), (Qmult_comm a 1).
    apply Qmult_le_compat_r; assumption. }
  split.
  - change 0%Z with (Qfloor 0). apply Qfloor_resp_le; exact B0.
  - rewrite <- (Qfloor_Z k). apply Qfloor_resp_le; exact B1.
Qed.

Lemma percentile_unfold (a : ndarray Q) (q x0 : Q) (s' : list Q) :
  0 <= q -> q <= 100 -> sort (ravel a) = x0 :: s' ->
  let s := x0 :: s' in
  let h := virtual_index (length (ravel a)) q in
  let j := Qfloor h in
  let below := nth (Z.to_nat j) s x0 in
  let above :=
    nth (Z.to_nat (Z.min (j + 1) (Z.of_nat (length (ravel a)) - 1))) s x0 in
  percentile a q = Returns (below + (above - below) * (h - inject_Z j)).
Proof.
  intros H0 H100 Hs. simpl.
  unfold percentile.
  apply Qle_bool_iff in H0. apply Qle_bool_iff in H100.
  rewrite H0, H100. simpl negb. cbv iota.
  rewrite Hs.
  replace (Z.of_nat (length (x0 :: s'))) with (Z.of_nat (length (ravel a)))
    by (rewrite <- Hs, sort_length; reflexivity).
  reflexivity.
Qed.

Lemma percentile_returns (a : ndarray Q) (q : Q) :
  ravel a <> [] -> 0 <= q -> q <= 100 ->
  exists p, percentile a q = Returns p /\ linear_percentile (ravel a) q p.
Proof.
  intros Hne H0 H100.
  destruct (sort_nonempty _ Hne) as (x0 & s' & Hs).
  pose proof (percentile_unfold a q x0 s' H0 H100 Hs) as Hp. simpl in Hp.
  eexists. split; [exact Hp | ].
  exists (x0 :: s').
  assert (Hlen : length (x0 :: s') = length (ravel a))
    by (rewrite <- Hs; apply sort_length).
  assert (Hpos : (0 < length (ravel a))%nat)
    by (rewrite <- Hlen; simpl; lia).
  destruct (virtual_index_bounds _ q Hpos H0 H100) as [J0 J1].
  split; [rewrite <- Hs; apply sort_perm | ].
  split; [rewrite <- Hs; apply sort_sorted | ].
  cbv zeta.
  assert (I1 : (Z.to_nat (Qfloor (virtual_index (length (ravel a)) q))
                < length (x0 :: s'))%nat) by (rewrite Hlen; lia).
  assert (I2 : (Z.to_nat (Z.min (Qfloor (virtual_index (length (ravel a)) q) + 1)
                                (Z.of_nat (length (ravel a)) - 1))
                < length (x0 :: s'))%nat) by (rewrite Hlen; lia).
  split; [exact I1 | ].
  rewrite (nth_indep _ 0 x0 I1), (nth_indep _ 0 x0 I2).
  reflexivity.
Qed.

(** On a flat array every percentile is the common value. *)
Lemma nth_all_equal (s : list Q) (v d : Q) (i : nat) :
  (forall x, In x s -> x == v) -> d == v -> nth i s d == v.
Proof.
  intros Hall Hd. destruct (nth_in_or_default i s d) as [H | H].
  - apply Hall; exact H.
  - rewrite H; exact Hd.
Qed.

Lemma percentile_flat (a : ndarray Q) (q v : Q) :
  ravel a <> [] -> 0 <= q -> q <= 100 ->
  (forall x, In x (ravel a) -> x == v) ->
  exists p, percentile a q = Returns p /\ p == v.
Proof.
  intros Hne H0 H100 Hall.
  destruct (sort_nonempty _ Hne) as (x0 & s' & Hs).
  pose proof (percentile_unfold a q x0 s' H0 H100 Hs) as Hp. cbv zeta in Hp.
  assert (Hall' : forall x, In x (x0 :: s') -> x == v).
  { intros x Hx. apply Hall. apply sort_In. rewrite Hs. exact Hx. }
  assert (Hx0 : x0 == v) by (apply Hall'; left; reflexivity).
  set (h := virtual_index (length (ravel a)) q) in *.
  set (below := nth (Z.to_nat (Qfloor h)) (x0 :: s') x0) in *.
  set (above := nth (Z.to_nat (Z.min (Qfloor h + 1)
                                 (Z.of_nat (length (ravel a)) - 1)))
                    (x0 :: s') x0) in *.
  assert (Hb : below == v) by (apply nth_all_equal; assumption).
  assert (Ha : above == v) by (apply nth_all_equal; assumption).
  eexists. split; [exact Hp | ].
  rewrite Hb, Ha. ring.
Qed.

(** ** The two paths of [default_window] *)

(** The fallback of [default_window], from the calibrated samples on. *)
Definition percentile_window (arr : ndarray Q) : result (Q * Q) :=
  p1 <- percentile arr 1 ;;
  p99 <- percentile arr 99 ;;
  Returns ((p99 + p1) / 2, Py.max 1 (p99 - p1)).

Lemma default_window_fallback (ds : FileDataset) :
  WindowCenter ds = None \/ WindowWidth ds = None ->
  default_window ds = (arr <- get_pixel_array ds ;; percentile_window arr).
Proof.
  intros [H | H]; unfold default_window; rewrite H; simpl.
  - reflexivity.
  - rewrite andb_false_r. reflexivity.
Qed.

(** The first value of a multi-valued element, the value of a single one. *)
Definition first_value (v : value) : result Q :=
  match v with
  | Single x => Returns x
  | MultiValue (x :: _) => Returns x
  | MultiValue [] => Raises IndexError
  end.

Lemma default_window_explicit (ds : FileDataset) (wc ww : value) :
  WindowCenter ds = Some wc -> WindowWidth ds = Some ww ->
  default_window ds =
  (c <- first_value wc ;; w <- first_value ww ;; Returns (c, w)).
Proof.
  intros Hc Hw. unfold default_window. rewrite Hc, Hw. simpl.
  destruct wc as [c | [ | c lc]], ww as [w | [ | w lw]]; reflexivity.
Qed.

Lemma py_max_Qmax (a b : Q) : Py.max a b = Qmax a b.
Proof.
  unfold Qmax, GenericMinMax.gmax.
  destruct (Qcompare a b) eqn:C.
  - apply Qeq_alt in C. apply py_max_first. rewrite C. apply Qle_refl.
  - apply Qlt_alt in C. apply py_max_second. exact C.
  - apply Qgt_alt in C. apply py_max_first. apply Qlt_le_weak. exact C.
Qed.

Lemma percentile_window_returns (arr : ndarray Q) :
  ravel arr <> [] ->
  exists p1 p99,
    percentile arr 1 = Returns p1 /\ linear_percentile (ravel arr) 1 p1 /\
    percentile arr 99 = Returns p99 /\ linear_percentile (ravel arr) 99 p99 /\
    percentile_window arr = Returns ((p99 + p1) / 2, Py.max 1 (p99 - p1)).
Proof.
  intro Hne.
  destruct (percentile_returns arr 1 Hne) as (p1 & Hp1 & L1); [lra | lra | ].
  destruct (percentile_returns arr 99 Hne) as (p99 & Hp99 & L99); [lra | lra | ].
  exists p1, p99. repeat (split; [assumption | ]).
  unfold percentile_window. rewrite Hp1, Hp99. reflexivity.
Qed.

(** ** The claims *)

(** The samples 0, 1, ..., 99, one each, as a 10 x 10 image without rescale
    or window elements. *)
Definition samples_0_99 : ndarray Z :=
  mk_ndarray [10%nat; 10%nat] (map Z.of_nat (seq 0 100)).

Definition ds_0_99 : FileDataset :=
  mk_FileDataset (Some samples_0_99) None None None None.

(** C1. Without window elements in the dataset, [default_window] returns
    center = (p99 + p1) / 2 and width = max(1.0, p99 - p1), where p1 and p99
    are the 1st and 99th linear-interpolation percentiles of the flattened
    calibrated samples.  On the samples 0..99 this gives center 49.5 and
    width 97.02, and [apply_window] with these parameters sends the sample 0
    to 0 and the sample 99 to 255. *)
Theorem C1_default_window_percentile_fallback :
  (forall (ds : FileDataset) (arr : ndarray Q),
      WindowCenter ds = None -> WindowWidth ds = None ->
      get_pixel_array ds = Returns arr -> ravel arr <> [] ->
      exists p1 p99,
        percentile arr 1 = Returns p1 /\ linear_percentile (ravel arr) 1 p1 /\
        percentile arr 99 = Returns p99 /\ linear_percentile (ravel arr) 99 p99 /\
        default_window ds = Returns ((p99 + p1) / 2, Qmax 1 (p99 - p1)))
  /\
  (exists (arr : ndarray Q) (center width : Q),
      get_pixel_array ds_0_99 = Returns arr /\
      default_window ds_0_99 = Returns (center, width) /\
      center == 99 # 2 /\ width == 4851 # 50 /\
      nth 0 (ravel arr) 0 == 0 /\
      nth 99 (ravel arr) 0 == 99 /\
      nth 0 (data (apply_window arr center width)) 0%Z = 0%Z /\
      nth 99 (data (apply_window arr center width)) 0%Z = 255%Z).
Proof.
  split.
  - intros ds arr Hc Hw Harr Hne.
    destruct (percentile_window_returns arr Hne)
      as (p1 & p99 & Hp1 & L1 & Hp99 & L99 & Hwin).
    exists p1, p99. repeat (split; [assumption | ]).
    rewrite default_window_fallback by (left; exact Hc).
    rewrite Harr. simpl. rewrite Hwin, py_max_Qmax. reflexivity.
  - destruct (get_pixel_array ds_0_99) as [arr | ] eqn:Harr;
      [ | vm_compute in Harr; discriminate].
    destruct (default_window ds_0_99) as [[center width] | ] eqn:Hwin;
      [ | vm_compute in Hwin; discriminate].
    exists arr, center, width.
    vm_compute in Harr. injection Harr as <-.
    vm_compute in Hwin. injection Hwin as <- <-.
    split; [reflexivity | ]. split; [reflexivity | ].
    repeat split; vm_compute; reflexivity.
Qed.

(** The general part of C1 at the samples 0..99. *)
Lemma C1_witness :
  exists p1 p99,
    percentile (elementwise (fun x => x * 1 + 0) (astype_float samples_0_99)) 1
      = Returns p1 /\
    linear_percentile
      (ravel (elementwise (fun x => x * 1 + 0) (astype_float samples_0_99))) 1 p1 /\
    percentile (elementwise (fun x => x * 1 + 0) (astype_float samples_0_99)) 99
      = Returns p99 /\
    linear_percentile
      (ravel (elementwise (fun x => x * 1 + 0) (astype_float samples_0_99))) 99 p99 /\
    default_window ds_0_99 = Returns ((p99 + p1) / 2, Qmax 1 (p99 - p1)).
Proof.
  apply (proj1 C1_default_window_percentile_fallback ds_0_99).
  - reflexivity.
  - reflexivity.
  - reflexivity.
  - simpl. discriminate.
Defined.

Lemma apply_window_nth (img : ndarray Q) (center width : Q) (i : nat) :
  (i < Np.size img)%nat ->
  nth i (data (apply_window img center width)) 0%Z
  = window_value center width (nth i (data img) 0).
Proof.
  intro Hi. rewrite apply_window_data.
  rewrite (nth_indep _ 0%Z (window_value center width 0))
    by (rewrite length_map; exact Hi).
  apply map_nth.
Qed.



(** A dataset whose explicit window width is 0. *)
Definition ds_zero_width : FileDataset :=
  mk_FileDataset (Some samples_0_99) None None (Some (Single 40)) (Some (Single 0)).

(** C3, as stated, fails: the explicit WindowWidth is returned as it is,
    here 0, below the floor of 1.0. *)
Lemma C3_counterexample :
  default_window ds_zero_width = Returns (40, 0) /\ ~ 1 <= 0.
Proof.
  split; [reflexivity | lra].
Qed.

(** C3, amended. On the percentile path (the dataset lacks WindowCenter or
    WindowWidth) the width [default_window] returns is at least 1.0, by the
    [max(1.0, ...)] clamp; on the explicit path the width is the (first)
    WindowWidth value of the dataset, returned unchanged. *)
Theorem C3_width_floor_on_fallback_only :
  (forall (ds : FileDataset) (arr : ndarray Q),
      WindowCenter ds = None \/ WindowWidth ds = None ->
      get_pixel_array ds = Returns arr -> ravel arr <> [] ->
      exists center width,
        default_window ds = Returns (center, width) /\ 1 <= width)
  /\
  (forall (ds : FileDataset) (wc ww : value) (c w : Q),
      WindowCenter ds = Some wc -> WindowWidth ds = Some ww ->
      first_value wc = Returns c -> first_value ww = Returns w ->
      default_window ds = Returns (c, w)).
Proof.
  split.
  - intros ds arr Hmiss Harr Hne.
    destruct (percentile_window_returns arr Hne)
      as (p1 & p99 & _ & _ & _ & _ & Hwin).
    exists ((p99 + p1) / 2), (Py.max 1 (p99 - p1)). split.
    + rewrite (default_window_fallback ds Hmiss), Harr. simpl. exact Hwin.
    + apply py_max_floor.
  - intros ds wc ww c w Hc Hw Fc Fw.
    rewrite (default_window_explicit ds wc ww Hc Hw), Fc, Fw. reflexivity.
Qed.

(** The percentile path of C3 at the samples 0..99 and the explicit path at a
    dataset with multi-valued window elements. *)
Lemma C3_witness :
  (exists center width,
      default_window ds_0_99 = Returns (center, width) /\ 1 <= width)
  /\
  default_window
    (mk_FileDataset (Some samples_0_99) None None
       (Some (MultiValue [40; 300])) (Some (MultiValue [80; 1500])))
  = Returns (40, 80).
Proof.
  split.
  - apply (proj1 C3_width_floor_on_fallback_only ds_0_99
             (elementwise (fun x => x * 1 + 0) (astype_float samples_0_99))).
    + left; reflexivity.
    + reflexivity.
    + simpl; discriminate.
  - apply (proj2 C3_width_floor_on_fallback_only _
             (MultiValue [40; 300]) (MultiValue [80; 1500]));
      reflexivity.
Defined.

(** An image with no pixels: zero rows. *)
Definition empty_samples : ndarray Q := mk_ndarray [0%nat; 4%nat] [].

(** C4, as stated, fails: on an array with zero elements [apply_window]
    returns normally, with the empty raster; so does the windowing step of
    [main] under either setting of the inversion. *)
Lemma C4_counterexample :
  Np.size empty_samples = 0%nat /\
  apply_window empty_samples 40 80 = mk_ndarray [0%nat; 4%nat] [] /\
  main_img_8 empty_samples 40 80 false = mk_ndarray [0%nat; 4%nat] [] /\
  main_img_8 empty_samples 40 80 true = mk_ndarray [0%nat; 4%nat] [] /\
  forall e : exn,
    Returns (apply_window empty_samples 40 80) <> Raises e.
Proof.
  repeat split; try reflexivity. intros e H. discriminate H.
Qed.

(** C4, amended. On a samples array with zero elements [apply_window]
    raises nothing: for every window and every setting of the inversion it
    returns the raster with zero elements, of the same shape. *)
Theorem C4_apply_window_empty_returns_empty :
  forall (img : ndarray Q) (center width : Q) (invert : bool),
    Np.size img = 0%nat ->
    apply_window img center width = mk_ndarray (shape img) [] /\
    main_img_8 img center width invert = mk_ndarray (shape img) [].
Proof.
  intros [shp d] center width invert Hsize.
  unfold Np.size in Hsize; simpl in Hsize.
  apply length_zero_iff_nil in Hsize. subst d.
  split; [reflexivity | destruct invert; reflexivity].
Qed.

(** C4, amended, at the image of zero rows with the inversion set. *)
Lemma C4_witness :
  apply_window empty_samples 40 80 = mk_ndarray (shape empty_samples) [] /\
  main_img_8 empty_samples 40 80 true = mk_ndarray (shape empty_samples) [].
Proof.
  apply (C4_apply_window_empty_returns_empty empty_samples 40 80 true).
  reflexivity.
Defined.

(** A dataset of two pixels whose RescaleSlope holds two values. *)
Definition ds_multi_slope : FileDataset :=
  mk_FileDataset (Some (mk_ndarray [1%nat; 2%nat] [1%Z; 2%Z]))
                 None (Some (MultiValue [2; 3])) None None.

(** C5 at a dataset with a multi-valued RescaleSlope: [get_pixel_array]
    raises a [TypeError], where the first value, 2, would give the samples
    2 and 4; a multi-valued RescaleIntercept does the same. *)
Theorem C5_multi_valued_rescale_raises :
  get_pixel_array ds_multi_slope = Raises TypeError /\
  get_pixel_array
    (mk_FileDataset (Some (mk_ndarray [1%nat; 2%nat] [1%Z; 2%Z]))
                    (Some (MultiValue [5; 7])) None None None)
  = Raises TypeError /\
  get_pixel_array
    (mk_FileDataset (Some (mk_ndarray [1%nat; 2%nat] [1%Z; 2%Z]))
                    None (Some (Single 2)) None None)
  = Returns (mk_ndarray [1%nat; 2%nat] [1 * 2 + 0; 2 * 2 + 0]).
Proof.
  repeat split; reflexivity.
Qed.

(** The part of C5 the code does: with single-valued (or absent) rescale
    elements every raw sample becomes raw * slope + intercept, the slope
    defaulting to 1 and the intercept to 0. *)
Lemma get_pixel_array_scalar (ds : FileDataset) (raw : ndarray Z) :
  pixel_array ds = Some raw ->
  (forall l, RescaleIntercept ds <> Some (MultiValue l)) ->
  (forall l, RescaleSlope ds <> Some (MultiValue l)) ->
  let slope :=
    match RescaleSlope ds with Some (Single s) => s | _ => 1 end in
  let intercept :=
    match RescaleIntercept ds with Some (Single i) => i | _ => 0 end in
  get_pixel_array ds
  = Returns (mk_ndarray (shape raw)
               (map (fun r => inject_Z r * slope + intercept) (data raw))).
Proof.
  intros Hraw Hi Hs. unfold get_pixel_array, get_pixel_data.
  rewrite Hraw. simpl.
  destruct (RescaleIntercept ds) as [[i | li] | ];
    [ | exfalso; apply (Hi li); reflexivity | ];
    (destruct (RescaleSlope ds) as [[s | ls] | ];
     [ | exfalso; apply (Hs ls); reflexivity | ]);
    simpl; unfold elementwise; simpl; rewrite map_map; reflexivity.
Qed.

(** ** Inversion *)

Lemma raster_in_range (img : ndarray Q) (center width : Q) :
  Forall (fun v => (0 <= v <= 255)%Z) (data (apply_window img center width)).
Proof.
  rewrite apply_window_data. apply Forall_forall.
  intros v Hv. apply in_map_iff in Hv. destruct Hv as (x & <- & _).
  apply window_value_range.
Qed.

(** C6. With equalisation off, the raster [main] computes with the
    inversion set is, element by element, 255 minus the raster it computes
    without it; the inversion acts on the uint8 raster, after the rounding,
    and never wraps around. *)
Theorem C6_invert_is_255_minus_raster :
  forall (arr : ndarray Q) (wc_slider ww_slider : Q),
    main_img_8 arr wc_slider ww_slider false
    = apply_window arr wc_slider ww_slider /\
    main_img_8 arr wc_slider ww_slider true
    = elementwise (fun v => (255 - v)%Z)
        (main_img_8 arr wc_slider ww_slider false) /\
    Forall (fun v => (0 <= v <= 255)%Z)
      (data (main_img_8 arr wc_slider ww_slider true)).
Proof.
  intros arr wc ww.
  pose proof (raster_in_range arr wc ww) as R.
  assert (E : main_img_8 arr wc ww true
              = elementwise (fun v => (255 - v)%Z) (apply_window arr wc ww)).
  { unfold main_img_8, rsub_uint8, elementwise. f_equal.
    apply map_ext_in. intros v Hv.
    rewrite Forall_forall in R. specialize (R v Hv).
    apply Z.mod_small. lia. }
  split; [reflexivity | ]. split; [exact E | ].
  rewrite E. unfold elementwise at 1. cbn [data].
  apply Forall_forall. intros v Hv.
  apply in_map_iff in Hv. destruct Hv as (u & <- & Hu).
  rewrite Forall_forall in R. specialize (R u Hu). lia.
Qed.

(** ** Flat images *)

Lemma apply_window_norm_finite (img : ndarray Q) (center width : Q) :
  ~ center + width / 2 - (center - width / 2) == 0 ->
  Forall (fun n => exists q, n = Finite q)
         (data (apply_window_norm img center width)).
Proof.
  intro Hnz. unfold apply_window_norm, clip, elementwise. cbn [data].
  rewrite map_map. apply Forall_forall. intros n Hn.
  apply in_map_iff in Hn. destruct Hn as (x & <- & _).
  rewrite (divide_finite _ _ Hnz). eauto.
Qed.

(** A flat 2 x 2 image of value 7 whose explicit window width is 0. *)
Definition ds_flat_zero_width : FileDataset :=
  mk_FileDataset (Some (mk_ndarray [2%nat; 2%nat] [7%Z; 7%Z; 7%Z; 7%Z]))
                 None None (Some (Single 7)) (Some (Single 0)).

(** C7, as stated, fails: the samples of [ds_flat_zero_width] are all
    equal, yet [default_window] returns its explicit width, 0, below 1.0,
    and under that window [apply_window] divides every sample by zero. *)
Lemma C7_counterexample :
  get_pixel_array ds_flat_zero_width
  = Returns (mk_ndarray [2%nat; 2%nat] [7; 7; 7; 7]) /\
  default_window ds_flat_zero_width = Returns (7, 0) /\
  ~ 1 <= 0 /\
  Forall (fun n => n = NonFinite)
         (data (apply_window_norm (mk_ndarray [2%nat; 2%nat] [7; 7; 7; 7]) 7 0)).
Proof.
  split; [reflexivity | ]. split; [reflexivity | ]. split; [lra | ].
  repeat constructor.
Qed.

(** C7, amended. On the percentile path (the dataset lacks WindowCenter or
    WindowWidth), for a non-empty samples array whose samples all have one
    value, of magnitude at most 2^32, [default_window] returns that value
    as the center and the width 1.0, which is at least 1.0; with these
    parameters [apply_window] divides by upper - lower = 1, not by zero,
    and every normalised sample is finite.  (The bound on the magnitude
    keeps center - 1/2 and center + 1/2 apart as binary64 numbers.) *)
Theorem C7_flat_image_no_division_by_zero :
  forall (ds : FileDataset) (arr : ndarray Q) (v : Q),
    WindowCenter ds = None \/ WindowWidth ds = None ->
    get_pixel_array ds = Returns arr ->
    ravel arr <> [] ->
    (forall x, In x (ravel arr) -> x == v) ->
    - inject_Z (2 ^ 32) <= v -> v <= inject_Z (2 ^ 32) ->
    exists center width,
      default_window ds = Returns (center, width) /\
      width == 1 /\ 1 <= width /\ center == v /\
      center + width / 2 - (center - width / 2) == 1 /\
      ~ center + width / 2 - (center - width / 2) == 0 /\
      Forall (fun n => exists q, n = Finite q)
             (data (apply_window_norm arr center width)).
Proof.
  intros ds arr v Hmiss Harr Hne Hflat _ _.
  destruct (percentile_flat arr 1 v Hne) as (p1 & Hp1 & E1);
    [lra | lra | exact Hflat | ].
  destruct (percentile_flat arr 99 v Hne) as (p99 & Hp99 & E99);
    [lra | lra | exact Hflat | ].
  assert (Hw : Py.max 1 (p99 - p1) = 1).
  { apply py_max_first. rewrite E1, E99. lra. }
  assert (Hc : (p99 + p1) / 2 == v) by (rewrite E1, E99; field).
  exists ((p99 + p1) / 2), 1.
  assert (Hspan : (p99 + p1) / 2 + 1 / 2 - ((p99 + p1) / 2 - 1 / 2) == 1)
    by (rewrite window_span; reflexivity).
  assert (Hnz : ~ (p99 + p1) / 2 + 1 / 2 - ((p99 + p1) / 2 - 1 / 2) == 0)
    by (rewrite Hspan; lra).
  split; [ | split; [ | split; [ | split; [ | split; [ | split]]]]].
  - rewrite (default_window_fallback ds Hmiss), Harr. simpl.
    unfold percentile_window. rewrite Hp1, Hp99. simpl. rewrite Hw.
    reflexivity.
  - reflexivity.
  - lra.
  - exact Hc.
  - exact Hspan.
  - exact Hnz.
  - apply apply_window_norm_finite; exact Hnz.
Qed.

(** A flat 2 x 2 image of value 7. *)
Definition ds_flat : FileDataset :=
  mk_FileDataset (Some (mk_ndarray [2%nat; 2%nat] [7%Z; 7%Z; 7%Z; 7%Z]))
                 None None None None.

(** C7, amended, at the flat image of value 7. *)
Lemma C7_witness :
  exists center width,
    default_window ds_flat = Returns (center, width) /\
    width == 1 /\ 1 <= width /\ center == 7 /\
    center + width / 2 - (center - width / 2) == 1 /\
    ~ center + width / 2 - (center - width / 2) == 0 /\
    Forall (fun n => exists q, n = Finite q)
           (data (apply_window_norm
                    (mk_ndarray [2%nat; 2%nat] [7; 7; 7; 7]) center width)).
Proof.
  apply (C7_flat_image_no_division_by_zero ds_flat
           (mk_ndarray [2%nat; 2%nat] [7; 7; 7; 7]) 7).
  - left; reflexivity.
  - reflexivity.
  - simpl; discriminate.
  - intros x [<- | [<- | [<- | [<- | []]]]]; reflexivity.
  - vm_compute. discriminate.
  - vm_compute. discriminate.
Defined.

(** ** The conversion to an image *)

Lemma clamp_uint8_id (d : list Z) :
  Forall (fun v => (0 <= v <= 255)%Z) d ->
  map (fun v => (v mod 256)%Z) (map (fun v => Z.min 255 (Z.max v 0)) d) = d.
Proof.
  intro H. rewrite map_map. rewrite <- (map_id d) at 2.
  apply map_ext_in. intros v Hv.
  rewrite Forall_forall in H. specialize (H v Hv).
  rewrite Z.max_l by lia. rewrite Z.min_r by lia.
  apply Z.mod_small. lia.
Qed.

Lemma squeeze_trailing (A : Type) (h w c : nat) (d : list A) :
  (2 <= h)%nat -> (2 <= w)%nat ->
  squeeze (mk_ndarray [h; w; c] d)
  = mk_ndarray (if Nat.eqb c 1 then [h; w] else [h; w; c]) d.
Proof.
  intros Hh Hw. unfold squeeze. cbn [shape data filter].
  assert (Eh : Nat.eqb h 1 = false) by (apply Nat.eqb_neq; lia).
  assert (Ew : Nat.eqb w 1 = false) by (apply Nat.eqb_neq; lia).
  rewrite Eh, Ew. cbn [negb].
  destruct (Nat.eqb c 1); reflexivity.
Qed.

(** A raster of 2 x 2 pixels with four channels, and one with five. *)
Definition raster_4ch : ndarray Z :=
  mk_ndarray [2%nat; 2%nat; 4%nat] (repeat 200%Z 16).

Definition raster_5ch : ndarray Z :=
  mk_ndarray [2%nat; 2%nat; 5%nat] (repeat 200%Z 20).

(** C8, as stated, fails: for the 4-channel raster [to_pil] returns an
    image of four channels (mode RGBA), neither single-channel nor
    3-channel; for the 5-channel raster the [TypeError] of
    [Image.fromarray] reaches the caller. *)
Lemma C8_counterexample :
  (exists im,
      to_pil raster_4ch = Returns im /\
      Pil.bands (Pil.im_mode im) = 4%nat /\
      ~ (Pil.bands (Pil.im_mode im) = 1%nat \/
         Pil.bands (Pil.im_mode im) = 3%nat))
  /\ to_pil raster_5ch = Raises TypeError.
Proof.
  split; [ | reflexivity].
  eexists. split; [reflexivity | ]. split; [reflexivity | ].
  simpl. intros [H | H]; discriminate H.
Qed.

(** C8, amended. For a uint8 raster of shape (H, W, C) with H, W >= 2 the
    fallback of [to_pil] squeezes and clamps and raises nothing when C is
    1, 2 or 4: a trailing axis of one channel is squeezed away and the image
    is single-channel (mode L); with 2 or 4 channels the squeeze changes
    nothing and the image keeps that number of channels (modes LA, RGBA).
    The samples of the raster pass through the clamp unchanged. *)
Theorem C8_to_pil_fallback_keeps_channels :
  forall (h w c : nat) (d : list Z),
    (2 <= h)%nat -> (2 <= w)%nat ->
    c = 1%nat \/ c = 2%nat \/ c = 4%nat ->
    length d = (h * w * c)%nat ->
    Forall (fun v => (0 <= v <= 255)%Z) d ->
    exists m : Pil.mode,
      to_pil (mk_ndarray [h; w; c] d) = Returns (Pil.mk_Image m (w, h) d) /\
      Pil.bands m = c.
Proof.
  intros h w c d Hh Hw Hc _ Hd.
  pose proof (clamp_uint8_id d Hd) as Hclamp.
  assert (Hto : to_pil (mk_ndarray [h; w; c] d)
                = Pil.fromarray
                    (mk_ndarray (if Nat.eqb c 1 then [h; w] else [h; w; c]) d)
                    None).
  { unfold to_pil. cbn [ndim shape length Nat.eqb nth andb].
    replace (Nat.eqb c 3) with false
      by (destruct Hc as [-> | [-> | ->]]; reflexivity).
    rewrite squeeze_trailing by assumption.
    unfold uint8_int, clip_int, elementwise; cbn [shape data].
    rewrite Hclamp. reflexivity. }
  rewrite Hto.
  destruct Hc as [-> | [-> | ->]].
  - exists Pil.L. split; reflexivity.
  - exists Pil.LA. split; reflexivity.
  - exists Pil.RGBA. split; reflexivity.
Qed.

(** C8, amended, at the 4-channel raster. *)
Lemma C8_witness :
  exists m : Pil.mode,
    to_pil raster_4ch
    = Returns (Pil.mk_Image m (2%nat, 2%nat) (repeat 200%Z 16)) /\
    Pil.bands m = 4%nat.
Proof.
  apply (C8_to_pil_fallback_keeps_channels 2 2 4 (repeat 200%Z 16)).
  - lia.
  - lia.
  - right; right; reflexivity.
  - reflexivity.
  - repeat constructor; lia.
Defined.

(** ** Statistics *)

Lemma Qmin_either (a b : Q) : Qmin a b = a \/ Qmin a b = b.
Proof.
  unfold Qmin, GenericMinMax.gmin. destruct (Qcompare a b); auto.
Qed.

Lemma Qmax_either (a b : Q) : Qmax a b = a \/ Qmax a b = b.
Proof.
  unfold Qmax, GenericMinMax.gmax. destruct (Qcompare a b); auto.
Qed.

Lemma fold_min_spec (l : list Q) (x : Q) :
  In (fold_left Qmin l x) (x :: l) /\
  forall y, In y (x :: l) -> fold_left Qmin l x <= y.
Proof.
  revert x. induction l as [ | z l IH]; intro x; simpl.
  - split; [left; reflexivity | ].
    intros y [<- | []]. apply Qle_refl.
  - destruct (IH (Qmin x z)) as [Hin Hle]. split.
    + destruct Hin as [E | Hin]; [ | right; right; exact Hin].
      rewrite <- E. destruct (Qmin_either x z) as [-> | ->]; auto.
    + intros y [<- | [<- | Hy]].
      * apply Qle_trans with (Qmin x z);
          [apply Hle; left; reflexivity | apply Q.le_min_l].
      * apply Qle_trans with (Qmin x z);
          [apply Hle; left; reflexivity | apply Q.le_min_r].
      * apply Hle. right; exact Hy.
Qed.

Lemma fold_max_spec (l : list Q) (x : Q) :
  In (fold_left Qmax l x) (x :: l) /\
  forall y, In y (x :: l) -> y <= fold_left Qmax l x.
Proof.
  revert x. induction l as [ | z l IH]; intro x; simpl.
  - split; [left; reflexivity | ].
    intros y [<- | []]. apply Qle_refl.
  - destruct (IH (Qmax x z)) as [Hin Hle]. split.
    + destruct Hin as [E | Hin]; [ | right; right; exact Hin].
      rewrite <- E. destruct (Qmax_either x z) as [-> | ->]; auto.
    + intros y [<- | [<- | Hy]].
      * apply Qle_trans with (Qmax x z);
          [apply Q.le_max_l | apply Hle; left; reflexivity].
      * apply Qle_trans with (Qmax x z);
          [apply Q.le_max_r | apply Hle; left; reflexivity].
      * apply Hle. right; exact Hy.
Qed.

Lemma min_spec (l : list Q) :
  l <> [] ->
  exists m, Np.min l = Returns m /\ In m l /\ forall y, In y l -> m <= y.
Proof.
  destruct l as [ | x l]; [congruence | intros _].
  exists (fold_left Qmin l x). split; [reflexivity | apply fold_min_spec].
Qed.

Lemma max_spec (l : list Q) :
  l <> [] ->
  exists m, Np.max l = Returns m /\ In m l /\ forall y, In y l -> y <= m.
Proof.
  destruct l as [ | x l]; [congruence | intros _].
  exists (fold_left Qmax l x). split; [reflexivity | apply fold_max_spec].
Qed.

Lemma length_nonzero (l : list Q) :
  l <> [] -> ~ inject_Z (Z.of_nat (length l)) == 0.
Proof.
  intros Hne H. apply Hne, length_zero_iff_nil.
  unfold Qeq in H; simpl in H. lia.
Qed.

(** The mean and the variance with [ddof = 0] are the population ones: the
    denominator is the number of samples. *)
Lemma mean_var_population (l : list Q) :
  l <> [] ->
  exists m v,
    Np.mean l = Finite m /\
    m * inject_Z (Z.of_nat (length l)) == Np.sum l /\
    Np.var 0 l = Finite v /\
    v * inject_Z (Z.of_nat (length l))
    == Np.sum (map (fun x => (x - m) * (x - m)) l).
Proof.
  intro Hne. pose proof (length_nonzero l Hne) as Hn.
  exists (Np.sum l / inject_Z (Z.of_nat (length l))).
  exists (Np.sum (map (fun x => (x - Np.sum l / inject_Z (Z.of_nat (length l)))
                              * (x - Np.sum l / inject_Z (Z.of_nat (length l)))) l)
          / inject_Z (Z.of_nat (length l))).
  assert (Hm : Np.mean l = Finite (Np.sum l / inject_Z (Z.of_nat (length l))))
    by (apply divide_finite; exact Hn).
  split; [exact Hm | ]. split; [field; exact Hn | ].
  split; [ | field; exact Hn].
  unfold Np.var. rewrite Hm.
  replace (Z.of_nat (length l) - Z.of_nat 0)%Z with (Z.of_nat (length l))
    by (simpl; lia).
  apply divide_finite; exact Hn.
Qed.

(** With [ddof = 1], the sample variance, the samples 1..5 would give 5/2:
    the 2 of the statistics below is the population variance. *)
Example var_ddof_1_differs :
  exists v, Np.var 1 [1; 2; 3; 4; 5] = Finite v /\ v == 5 # 2.
Proof.
  eexists. split; [vm_compute; reflexivity | reflexivity].
Qed.

(** The samples 1, 2, 3, 4, 5. *)
Definition samples_1_5 : ndarray Q := mk_ndarray [5%nat] [1; 2; 3; 4; 5].

(** C9. The quick statistics of [main] are the absolute extrema, the
    population mean and standard deviation (denominator N) and the
    linear-interpolation percentiles at 10, 50 and 90 of the flattened
    calibrated samples; for the samples 1..5 they are min 1, max 5, mean 3,
    standard deviation sqrt 2 and median 3. *)
Theorem C9_statistics :
  (forall arr : ndarray Q,
      ravel arr <> [] ->
      exists (st : Statistics) (m v : Q),
        main_statistics arr = Returns st /\
        In (mn st) (ravel arr) /\
        (forall x, In x (ravel arr) -> mn st <= x) /\
        In (mx st) (ravel arr) /\
        (forall x, In x (ravel arr) -> x <= mx st) /\
        mean st = Finite m /\
        m * inject_Z (Z.of_nat (length (ravel arr))) == Np.sum (ravel arr) /\
        std st = Finite (sqrt (Q2R v)) /\
        v * inject_Z (Z.of_nat (length (ravel arr)))
        == Np.sum (map (fun x => (x - m) * (x - m)) (ravel arr)) /\
        linear_percentile (ravel arr) 10 (p10 st) /\
        linear_percentile (ravel arr) 50 (p50 st) /\
        linear_percentile (ravel arr) 90 (p90 st))
  /\
  (exists (st : Statistics) (m : Q),
      main_statistics samples_1_5 = Returns st /\
      mn st == 1 /\ mx st == 5 /\
      mean st = Finite m /\ m == 3 /\
      std st = Finite (sqrt 2) /\
      p50 st == 3).
Proof.
  split.
  - intros arr Hne.
    set (flat := mk_ndarray [length (ravel arr)] (ravel arr)).
    assert (Hflat : ravel flat = ravel arr) by reflexivity.
    destruct (percentile_returns flat 10) as (q10 & H10 & L10);
      [rewrite Hflat; exact Hne | lra | lra | ].
    destruct (percentile_returns flat 50) as (q50 & H50 & L50);
      [rewrite Hflat; exact Hne | lra | lra | ].
    destruct (percentile_returns flat 90) as (q90 & H90 & L90);
      [rewrite Hflat; exact Hne | lra | lra | ].
    destruct (min_spec (ravel arr) Hne) as (lo & Hlo & Ilo & Blo).
    destruct (max_spec (ravel arr) Hne) as (hi & Hhi & Ihi & Bhi).
    destruct (mean_var_population (ravel arr) Hne)
      as (m & v & Hm & Em & Hv & Ev).
    exists (mk_Statistics q10 q50 q90 lo hi (Finite m) (Finite (sqrt (Q2R v)))).
    exists m, v.
    split.
    { unfold main_statistics. fold flat.
      rewrite H10, H50, H90. cbn [Py.bind data flat].
      rewrite Hlo, Hhi. cbn [Py.bind]. unfold Np.std. rewrite Hm, Hv.
      reflexivity. }
    cbn [mn mx mean std p10 p50 p90].
    repeat (split; [assumption || reflexivity | ]). exact L90.
  - assert (H10 : exists q, percentile samples_1_5 10 = Returns q)
      by (eexists; vm_compute; reflexivity).
    assert (H50 : exists q, percentile samples_1_5 50 = Returns q /\ q == 3)
      by (eexists; split; [vm_compute; reflexivity | vm_compute; reflexivity]).
    assert (H90 : exists q, percentile samples_1_5 90 = Returns q)
      by (eexists; vm_compute; reflexivity).
    assert (Hm : exists m, Np.mean [1; 2; 3; 4; 5] = Finite m /\ m == 3)
      by (eexists; split; [vm_compute; reflexivity | vm_compute; reflexivity]).
    assert (Hv : exists v, Np.var 0 [1; 2; 3; 4; 5] = Finite v /\ v == 2)
      by (eexists; split; [vm_compute; reflexivity | vm_compute; reflexivity]).
    destruct H10 as (q10 & H10), H50 as (q50 & H50 & E50), H90 as (q90 & H90).
    destruct Hm as (m & Hm & Em), Hv as (v & Hv & Ev).
    exists (mk_Statistics q10 q50 q90 1 5 (Finite m) (Finite (sqrt 2))), m.
    split.
    { unfold main_statistics.
      change (mk_ndarray [length (ravel samples_1_5)] (ravel samples_1_5))
        with samples_1_5.
      rewrite H10, H50, H90. cbn [Py.bind].
      change (data samples_1_5) with [1; 2; 3; 4; 5].
      change (Np.min [1; 2; 3; 4; 5]) with (Returns (A := Q) 1).
      change (Np.max [1; 2; 3; 4; 5]) with (Returns (A := Q) 5).
      cbn [Py.bind]. unfold Np.std. rewrite Hm, Hv. cbn [scalar_map].
      assert (E2 : Q2R v = 2%R).
      { rewrite (Qeq_eqR _ _ Ev). unfold Q2R. simpl. Lra.lra. }
      rewrite E2. reflexivity. }
    cbn [mn mx mean std p10 p50 p90].
    repeat split; try reflexivity; assumption.
Qed.

(** The general part of C9 at the samples 1..5. *)
Lemma C9_witness :
  exists (st : Statistics) (m v : Q),
    main_statistics samples_1_5 = Returns st /\
    In (mn st) (ravel samples_1_5) /\
    (forall x, In x (ravel samples_1_5) -> mn st <= x) /\
    In (mx st) (ravel samples_1_5) /\
    (forall x, In x (ravel samples_1_5) -> x <= mx st) /\
    mean st = Finite m /\
    m * inject_Z (Z.of_nat (length (ravel samples_1_5)))
    == Np.sum (ravel samples_1_5) /\
    std st = Finite (sqrt (Q2R v)) /\
    v * inject_Z (Z.of_nat (length (ravel samples_1_5)))
    == Np.sum (map (fun x => (x - m) * (x - m)) (ravel samples_1_5)) /\
    linear_percentile (ravel samples_1_5) 10 (p10 st) /\
    linear_percentile (ravel samples_1_5) 50 (p50 st) /\
    linear_percentile (ravel samples_1_5) 90 (p90 st).
Proof.
  apply (proj1 C9_statistics samples_1_5).
  simpl. discriminate.
Defined.

(** ** One window element without the other *)

(** The dataset without its window elements. *)
Definition clear_window (ds : FileDataset) : FileDataset :=
  mk_FileDataset (pixel_array ds) (RescaleIntercept ds) (RescaleSlope ds)
                 None None.

Lemma get_pixel_array_clear_window (ds : FileDataset) :
  get_pixel_array (clear_window ds) = get_pixel_array ds.
Proof. reflexivity. Qed.

(** C10. [default_window] takes the explicit path only when the dataset
    has both WindowCenter and WindowWidth: when one of them is missing the
    result is the percentile fallback over the calibrated samples, and a
    dataset with exactly one of the two gets the window it would get with
    neither, whatever the value of the one it carries. *)
Theorem C10_explicit_path_needs_both :
  (forall ds : FileDataset,
      WindowCenter ds = None \/ WindowWidth ds = None ->
      default_window ds = (arr <- get_pixel_array ds ;; percentile_window arr))
  /\
  (forall (ds : FileDataset) (v : value),
      (WindowCenter ds = Some v /\ WindowWidth ds = None) \/
      (WindowCenter ds = None /\ WindowWidth ds = Some v) ->
      default_window ds = default_window (clear_window ds) /\
      forall arr : ndarray Q,
        get_pixel_array ds = Returns arr -> ravel arr <> [] ->
        exists p1 p99,
          percentile arr 1 = Returns p1 /\ percentile arr 99 = Returns p99 /\
          default_window ds = Returns ((p99 + p1) / 2, Py.max 1 (p99 - p1))).
Proof.
  split.
  - exact default_window_fallback.
  - intros ds v Hone.
    assert (Hmiss : WindowCenter ds = None \/ WindowWidth ds = None)
      by (destruct Hone as [[_ H] | [H _]]; auto).
    split.
    + rewrite (default_window_fallback ds Hmiss).
      rewrite (default_window_fallback (clear_window ds))
        by (left; reflexivity).
      rewrite get_pixel_array_clear_window. reflexivity.
    + intros arr Harr Hne.
      destruct (percentile_window_returns arr Hne)
        as (p1 & p99 & Hp1 & _ & Hp99 & _ & Hwin).
      exists p1, p99. split; [exact Hp1 | ]. split; [exact Hp99 | ].
      rewrite (default_window_fallback ds Hmiss), Harr. exact Hwin.
Qed.

(** A dataset with the samples 0..99 and a WindowCenter of 1000 but no
    WindowWidth: the center is not 1000 but the 49.5 of the fallback. *)
Definition ds_center_only : FileDataset :=
  mk_FileDataset (Some samples_0_99) None None (Some (Single 1000)) None.

(** C10 at a dataset with a WindowCenter and no WindowWidth. *)
Lemma C10_witness :
  default_window ds_center_only = default_window (clear_window ds_center_only) /\
  forall arr : ndarray Q,
    get_pixel_array ds_center_only = Returns arr -> ravel arr <> [] ->
    exists p1 p99,
      percentile arr 1 = Returns p1 /\ percentile arr 99 = Returns p99 /\
      default_window ds_center_only
      = Returns ((p99 + p1) / 2, Py.max 1 (p99 - p1)).
Proof.
  apply (proj2 C10_explicit_path_needs_both ds_center_only (Single 1000)).
  left. split; reflexivity.
Defined.

Example default_window_center_only :
  exists center width,
    default_window ds_center_only = Returns (center, width) /\
    center == 99 # 2 /\ width == 4851 # 50.
Proof.
  eexists; eexists. split; [vm_compute; reflexivity | ].
  split; reflexivity.
Qed.

(** * Further properties of the pipeline *)

(** ** Order in a sorted array *)

Lemma sorted_nth_le (s : list Q) (d : Q) :
  Sorted Qle s ->
  forall i j : nat, (i <= j)%nat -> (j < length s)%nat ->
  nth i s d <= nth j s d.
Proof.
  intro S. apply Sorted_StronglySorted in S; [ | exact Qle_trans].
  induction S as [ | x s S IH Hx]; intros i j Hij Hj; simpl in Hj; [lia | ].
  destruct i as [ | i], j as [ | j]; simpl.
  - apply Qle_refl.
  - rewrite Forall_forall in Hx. apply Hx. apply nth_In. lia.
  - lia.
  - apply IH; lia.
Qed.

Lemma interpolation_between (a b g : Q) :
  a <= b -> 0 <= g -> g <= 1 ->
  a <= a + (b - a) * g /\ a + (b - a) * g <= b.
Proof.
  intros Hab Hg0 Hg1.
  assert (H1 : 0 <= (b - a) * g) by (apply Qmult_le_0_compat; lra).
  assert (H2 : 0 <= (b - a) * (1 - g)) by (apply Qmult_le_0_compat; lra).
  assert (E : (b - a) * (1 - g) == (b - a) - (b - a) * g) by ring.
  lra.
Qed.

Lemma floor_fraction (h : Q) :
  0 <= h - inject_Z (Qfloor h) /\ h - inject_Z (Qfloor h) < 1.
Proof.
  pose proof (Qfloor_le h) as H1. pose proof (Qlt_floor h) as H2.
  rewrite inject_Z_plus in H2. change (inject_Z 1) with 1 in H2.
  split; lra.
Qed.

(** The value [np.percentile] reads off a sorted array [s] of [n] elements
    at the virtual index [h]. *)
Definition interpolate (s : list Q) (x0 : Q) (n : Z) (h : Q) : Q :=
  let j := Qfloor h in
  let below := nth (Z.to_nat j) s x0 in
  let above := nth (Z.to_nat (Z.min (j + 1) (n - 1))) s x0 in
  below + (above - below) * (h - inject_Z j).

Lemma percentile_interpolate (a : ndarray Q) (q x0 : Q) (s' : list Q) :
  0 <= q -> q <= 100 -> sort (ravel a) = x0 :: s' ->
  percentile a q
  = Returns (interpolate (x0 :: s') x0 (Z.of_nat (length (ravel a)))
               (virtual_index (length (ravel a)) q)).
Proof.
  intros H0 H100 Hs.
  exact (percentile_unfold a q x0 s' H0 H100 Hs).
Qed.

Section Interpolation.

Variables (s : list Q) (x0 : Q).
Hypothesis s_sorted : Sorted Qle s.
Hypothesis s_nonempty : (0 < length s)%nat.

Let n := Z.of_nat (length s).

Lemma interpolate_between (h : Q) :
  (0 <= Qfloor h <= n - 1)%Z ->
  nth (Z.to_nat (Qfloor h)) s x0 <= interpolate s x0 n h /\
  interpolate s x0 n h
  <= nth (Z.to_nat (Z.min (Qfloor h + 1) (n - 1))) s x0.
Proof.
  intros Hj. unfold interpolate.
  destruct (floor_fraction h) as [G0 G1].
  apply interpolation_between; [ | exact G0 | lra].
  apply sorted_nth_le; [exact s_sorted | lia | unfold n in *; lia].
Qed.

Lemma interpolate_monotone (h1 h2 : Q) :
  (0 <= Qfloor h1)%Z -> (Qfloor h2 <= n - 1)%Z -> h1 <= h2 ->
  interpolate s x0 n h1 <= interpolate s x0 n h2.
Proof.
  intros J0 J1 Hh.
  pose proof (Qfloor_resp_le h1 h2 Hh) as Hf.
  destruct (Z.eq_dec (Qfloor h1) (Qfloor h2)) as [E | E].
  - unfold interpolate. rewrite <- E.
    set (below := nth (Z.to_nat (Qfloor h1)) s x0).
    set (above := nth (Z.to_nat (Z.min (Qfloor h1 + 1) (n - 1))) s x0).
    assert (Hba : below <= above).
    { apply sorted_nth_le; [exact s_sorted | lia | unfold n in *; lia]. }
    assert (Hg : 0 <= (above - below) * (h2 - h1))
      by (apply Qmult_le_0_compat; lra).
    assert (Er : (above - below) * (h2 - inject_Z (Qfloor h1))
                 == (above - below) * (h1 - inject_Z (Qfloor h1))
                    + (above - below) * (h2 - h1)) by ring.
    lra.
  - assert (Hlt : (Qfloor h1 < Qfloor h2)%Z) by lia.
    destruct (interpolate_between h1) as [_ U1]; [lia | ].
    destruct (interpolate_between h2) as [L2 _]; [lia | ].
    apply Qle_trans with (nth (Z.to_nat (Z.min (Qfloor h1 + 1) (n - 1))) s x0);
      [exact U1 | ].
    apply Qle_trans with (nth (Z.to_nat (Qfloor h2)) s x0); [ | exact L2].
    apply sorted_nth_le; [exact s_sorted | lia | unfold n in *; lia].
Qed.

End Interpolation.

(** ** Percentiles: bounds and order *)

Lemma virtual_index_monotone (n : nat) (q1 q2 : Q) :
  (0 < n)%nat -> q1 <= q2 -> virtual_index n q1 <= virtual_index n q2.
Proof.
  intros Hn Hq. unfold virtual_index.
  assert (Hk : 0 <= inject_Z (Z.of_nat n - 1)).
  { change 0 with (inject_Z 0). rewrite <- Zle_Qle. lia. }
  set (k := inject_Z (Z.of_nat n - 1)) in *.
  assert (H : 0 <= k * (q2 - q1)) by (apply Qmult_le_0_compat; lra).
  assert (E : k * q2 / 100 - k * q1 / 100 == k * (q2 - q1) / 100) by field.
  assert (H' : 0 <= k * (q2 - q1) / 100) by (apply Qle_shift_div_l; lra).
  lra.
Qed.

Lemma percentile_monotone (a : ndarray Q) (q1 q2 : Q) :
  ravel a <> [] -> 0 <= q1 -> q1 <= q2 -> q2 <= 100 ->
  exists p1 p2,
    percentile a q1 = Returns p1 /\ percentile a q2 = Returns p2 /\ p1 <= p2.
Proof.
  intros Hne H0 H12 H100.
  destruct (sort_nonempty _ Hne) as (x0 & s' & Hs).
  assert (Hlen : length (x0 :: s') = length (ravel a))
    by (rewrite <- Hs; apply sort_length).
  assert (Hpos : (0 < length (ravel a))%nat) by (rewrite <- Hlen; simpl; lia).
  assert (Hsorted : Sorted Qle (x0 :: s')) by (rewrite <- Hs; apply sort_sorted).
  rewrite (percentile_interpolate a q1 x0 s') by (lra || exact Hs).
  rewrite (percentile_interpolate a q2 x0 s') by (lra || exact Hs).
  eexists; eexists. split; [reflexivity | ]. split; [reflexivity | ].
  destruct (virtual_index_bounds _ q1 Hpos) as [J0 _]; [lra | lra | ].
  destruct (virtual_index_bounds _ q2 Hpos) as [_ J1]; [lra | lra | ].
  rewrite <- Hlen in *.
  apply interpolate_monotone; try assumption.
  apply virtual_index_monotone; [exact Hpos | exact H12].
Qed.

Lemma percentile_within_extrema (a : ndarray Q) (q lo hi : Q) :
  0 <= q -> q <= 100 ->
  Np.min (ravel a) = Returns lo -> Np.max (ravel a) = Returns hi ->
  exists p, percentile a q = Returns p /\ lo <= p /\ p <= hi.
Proof.
  intros H0 H100 Hlo Hhi.
  assert (Hne : ravel a <> []).
  { intro E. rewrite E in Hlo. discriminate Hlo. }
  destruct (min_spec _ Hne) as (lo' & Hlo' & _ & Blo).
  destruct (max_spec _ Hne) as (hi' & Hhi' & _ & Bhi).
  rewrite Hlo in Hlo'. injection Hlo' as <-.
  rewrite Hhi in Hhi'. injection Hhi' as <-.
  destruct (sort_nonempty _ Hne) as (x0 & s' & Hs).
  assert (Hlen : length (x0 :: s') = length (ravel a))
    by (rewrite <- Hs; apply sort_length).
  assert (Hpos : (0 < length (ravel a))%nat) by (rewrite <- Hlen; simpl; lia).
  assert (Hsorted : Sorted Qle (x0 :: s')) by (rewrite <- Hs; apply sort_sorted).
  rewrite (percentile_interpolate a q x0 s' H0 H100 Hs).
  eexists. split; [reflexivity | ].
  destruct (virtual_index_bounds _ q Hpos H0 H100) as [J0 J1].
  rewrite <- Hlen in *.
  destruct (interpolate_between (x0 :: s') x0 Hsorted Hpos
              (virtual_index (length (x0 :: s')) q)) as [L U]; [lia | ].
  assert (Hin : forall i, (i < length (x0 :: s'))%nat ->
                          In (nth i (x0 :: s') x0) (ravel a)).
  { intros i Hi. apply sort_In. rewrite Hs. apply nth_In. exact Hi. }
  split.
  - eapply Qle_trans; [ | exact L]. apply Blo, Hin. lia.
  - eapply Qle_trans; [exact U | ]. apply Bhi, Hin. lia.
Qed.

(** ** The explicit path of [default_window] *)

(** X2. When the dataset has both window elements, the answer of
    [default_window], a window or an exception, depends on these two
    elements only: it reads neither the pixel data nor the rescale
    elements.  Two datasets with the same window elements get the same
    answer, also when one of them has no pixel data or a rescale element on
    which [get_pixel_array] fails. *)
Theorem X2_explicit_window_ignores_pixels :
  forall (ds ds' : FileDataset) (wc ww : value),
    WindowCenter ds = Some wc -> WindowWidth ds = Some ww ->
    WindowCenter ds' = Some wc -> WindowWidth ds' = Some ww ->
    default_window ds' = default_window ds.
Proof.
  intros ds ds' wc ww Hc Hw Hc' Hw'.
  rewrite (default_window_explicit ds wc ww Hc Hw).
  apply default_window_explicit; assumption.
Qed.

(** X2 at the samples 0..99 with a window of (40, 400), against the
    dataset with the same window, no pixel data and a multi-valued slope. *)
Lemma X2_witness :
  default_window
    (mk_FileDataset None None (Some (MultiValue [2; 3]))
       (Some (Single 40)) (Some (MultiValue [400; 1500])))
  = default_window
      (mk_FileDataset (Some samples_0_99) None None
         (Some (Single 40)) (Some (MultiValue [400; 1500]))).
Proof.
  apply (X2_explicit_window_ignores_pixels
           (mk_FileDataset (Some samples_0_99) None None
              (Some (Single 40)) (Some (MultiValue [400; 1500])))
           (mk_FileDataset None None (Some (MultiValue [2; 3]))
              (Some (Single 40)) (Some (MultiValue [400; 1500])))
           (Single 40) (MultiValue [400; 1500]));
    reflexivity.
Defined.

(** ** The fallback window and the range of the samples *)

Lemma half_sum_between (a b : Q) :
  a <= b -> a <= (b + a) / 2 /\ (b + a) / 2 <= b.
Proof.
  intro H.
  assert (E : (b + a) / 2 == a + (b - a) * (1 # 2)) by field.
  rewrite E. apply interpolation_between; lra.
Qed.

Lemma fallback_window_bounds (arr : ndarray Q) (lo hi : Q) :
  Np.min (ravel arr) = Returns lo -> Np.max (ravel arr) = Returns hi ->
  exists p1 p99,
    percentile arr 1 = Returns p1 /\ percentile arr 99 = Returns p99 /\
    percentile_window arr = Returns ((p99 + p1) / 2, Py.max 1 (p99 - p1)) /\
    lo <= p1 /\ p1 <= p99 /\ p99 <= hi.
Proof.
  intros Hlo Hhi.
  assert (Hne : ravel arr <> []).
  { intro E. rewrite E in Hlo. discriminate Hlo. }
  destruct (percentile_monotone arr 1 99 Hne) as (p1 & p99 & H1 & H99 & Hle);
    [lra | lra | lra | ].
  destruct (percentile_within_extrema arr 1 lo hi) as (p1' & H1' & L1 & _);
    [lra | lra | exact Hlo | exact Hhi | ].
  destruct (percentile_within_extrema arr 99 lo hi) as (p99' & H99' & _ & U99);
    [lra | lra | exact Hlo | exact Hhi | ].
  rewrite H1 in H1'. injection H1' as <-.
  rewrite H99 in H99'. injection H99' as <-.
  exists p1, p99. repeat (split; [assumption | ]).
  split; [ | repeat split; assumption].
  unfold percentile_window. rewrite H1, H99. reflexivity.
Qed.

Lemma py_max_le (a b c : Q) : a <= c -> b <= c -> Py.max a b <= c.
Proof.
  intros Ha Hb. unfold Py.max. destruct (Qle_bool b a); assumption.
Qed.





(** ** The quick statistics: order *)

Lemma main_statistics_nonempty (arr : ndarray Q) (st : Statistics) :
  main_statistics arr = Returns st -> ravel arr <> [].
Proof.
  intros H E. unfold main_statistics in H. rewrite E in H.
  vm_compute in H. discriminate H.
Qed.

(** The fields of the statistics, one by one. *)
Lemma main_statistics_fields (arr : ndarray Q) (st : Statistics) :
  main_statistics arr = Returns st ->
  percentile arr 10 = Returns (p10 st) /\
  percentile arr 50 = Returns (p50 st) /\
  percentile arr 90 = Returns (p90 st) /\
  Np.min (ravel arr) = Returns (mn st) /\
  Np.max (ravel arr) = Returns (mx st) /\
  mean st = Np.mean (ravel arr) /\
  std st = Np.std 0 (ravel arr).
Proof.
  unfold main_statistics.
  set (flat := mk_ndarray [length (ravel arr)] (ravel arr)).
  assert (Hp : forall q, percentile flat q = percentile arr q) by reflexivity.
  rewrite !Hp. change (data flat) with (ravel arr).
  destruct (percentile arr 10) as [q10 | ]; [ | discriminate].
  destruct (percentile arr 50) as [q50 | ]; [ | discriminate].
  destruct (percentile arr 90) as [q90 | ]; [ | discriminate].
  cbn [Py.bind].
  destruct (Np.min (ravel arr)) as [lo | ]; [ | discriminate].
  destruct (Np.max (ravel arr)) as [hi | ]; [ | discriminate].
  cbn [Py.bind]. intro H. injection H as <-.
  repeat split; reflexivity.
Qed.


(** The statistics of the samples 1..5. *)
Definition stats_1_5 : Statistics :=
  mk_Statistics (140 # 100) (300 # 100) (460 # 100) 1 5
                (Finite (15 # 5)) (Np.std 0 (ravel samples_1_5)).

Lemma main_statistics_1_5 : main_statistics samples_1_5 = Returns stats_1_5.
Proof. reflexivity. Qed.


(** ** Images from rasters *)

(** The number of elements an array of a given shape has. *)
Definition shape_size (shp : list nat) : nat := fold_right Nat.mul 1%nat shp.

Lemma shape_size_squeeze (A : Type) (a : ndarray A) :
  shape_size (shape (squeeze a)) = shape_size (shape a).
Proof.
  unfold squeeze, shape_size. cbn [shape].
  induction (shape a) as [ | d l IH]; [reflexivity | ].
  cbn [filter]. destruct (Nat.eqb d 1) eqn:E; cbn [negb fold_right].
  - apply Nat.eqb_eq in E. subst d. rewrite IH. lia.
  - rewrite IH. reflexivity.
Qed.

Lemma fromarray_well_formed (a : ndarray Z) (md : option Pil.mode)
      (im : Pil.Image) :
  md = None \/ (md = Some Pil.L /\ ndim a = 2%nat) ->
  Pil.fromarray a md = Returns im ->
  Pil.im_data im = data a /\
  (Pil.bands (Pil.im_mode im) * fst (Pil.im_size im) * snd (Pil.im_size im))%nat
  = shape_size (shape a).
Proof.
  destruct a as [shp d]. unfold ndim. cbn [shape data].
  intros [-> | [-> Hnd]] H; unfold Pil.fromarray in H;
    cbn [shape data Py.bind ndim] in H.
  - destruct shp as [ | h [ | w [ | c [ | e shp]]]];
      cbn [skipn Pil.typemap Py.bind length Pil.ndmax Nat.ltb Nat.leb] in H;
      try discriminate H.
    + injection H as <-. cbn. split; [reflexivity | lia].
    + injection H as <-. cbn. split; [reflexivity | lia].
    + destruct c as [ | [ | [ | [ | [ | c]]]]];
        cbn [Pil.typemap Py.bind Pil.ndmax Nat.ltb Nat.leb] in H;
        try discriminate H; injection H as <-; cbn; split;
          try reflexivity; lia.
    + destruct c as [ | [ | [ | [ | [ | c]]]]];
        cbn [Pil.typemap Py.bind] in H; discriminate H.
  - destruct shp as [ | h [ | w [ | c shp]]]; cbn [length] in Hnd;
      try discriminate Hnd.
    cbn [Py.bind Pil.ndmax Nat.ltb Nat.leb length] in H.
    injection H as <-. cbn. split; [reflexivity | lia].
Qed.

(** X13. Whatever [to_pil] returns for a uint8 raster is a well-formed
    image holding the raster unchanged: its samples are those of the raster,
    in the same order, and their number is bands x width x height. *)
Theorem X13_to_pil_keeps_samples :
  forall (img_array : ndarray Z) (im : Pil.Image),
    length (data img_array) = shape_size (shape img_array) ->
    Forall (fun v => (0 <= v <= 255)%Z) (data img_array) ->
    to_pil img_array = Returns im ->
    Pil.im_data im = data img_array /\
    (Pil.bands (Pil.im_mode im) * fst (Pil.im_size im) * snd (Pil.im_size im))%nat
    = length (Pil.im_data im).
Proof.
  intros img_array im Hlen Hrange H. unfold to_pil in H.
  destruct (ndim img_array =? 2)%nat eqn:N2.
  - apply Nat.eqb_eq in N2.
    destruct (fromarray_well_formed _ _ _ (or_intror (conj eq_refl N2)) H)
      as [D S].
    split; [exact D | rewrite S, D, Hlen; reflexivity].
  - destruct ((ndim img_array =? 3) && (nth 2 (shape img_array) 0 =? 3))%nat.
    + destruct (fromarray_well_formed _ _ _ (or_introl eq_refl) H) as [D S].
      split; [exact D | rewrite S, D, Hlen; reflexivity].
    + destruct (fromarray_well_formed _ _ _ (or_introl eq_refl) H) as [D S].
      unfold uint8_int, clip_int, elementwise in D, S. cbn [data shape] in D, S.
      change (data (squeeze img_array)) with (data img_array) in D.
      rewrite (clamp_uint8_id _ Hrange) in D.
      rewrite (shape_size_squeeze Z img_array) in S.
      split; [exact D | rewrite S, D, Hlen; reflexivity].
Qed.

(** X13 at the 4-channel raster. *)
Lemma X13_witness :
  Pil.im_data (Pil.mk_Image Pil.RGBA (2%nat, 2%nat) (repeat 200%Z 16))
  = data raster_4ch /\
  (Pil.bands (Pil.im_mode (Pil.mk_Image Pil.RGBA (2%nat, 2%nat) (repeat 200%Z 16)))
   * fst (Pil.im_size (Pil.mk_Image Pil.RGBA (2%nat, 2%nat) (repeat 200%Z 16)))
   * snd (Pil.im_size (Pil.mk_Image Pil.RGBA (2%nat, 2%nat) (repeat 200%Z 16))))%nat
  = length (Pil.im_data (Pil.mk_Image Pil.RGBA (2%nat, 2%nat) (repeat 200%Z 16))).
Proof.
  apply (X13_to_pil_keeps_samples raster_4ch).
  - reflexivity.
  - repeat constructor; lia.
  - reflexivity.
Defined.

(** X14. A 3-D raster none of whose first two axes has length one and
    whose last axis is longer than 4, such as a stack of several frames, is
    refused: [to_pil] raises the [TypeError] of [Image.fromarray]. *)
Theorem X14_to_pil_refuses_stacks :
  forall (a b c : nat) (d : list Z),
    a <> 1%nat -> b <> 1%nat -> (5 <= c)%nat ->
    to_pil (mk_ndarray [a; b; c] d) = Raises TypeError.
Proof.
  intros a b c d Ha Hb Hc. unfold to_pil.
  cbn [ndim shape length Nat.eqb nth andb].
  replace (Nat.eqb c 3) with false by (symmetry; apply Nat.eqb_neq; lia).
  unfold squeeze. cbn [shape data filter].
  replace (Nat.eqb a 1) with false by (symmetry; apply Nat.eqb_neq; lia).
  replace (Nat.eqb b 1) with false by (symmetry; apply Nat.eqb_neq; lia).
  replace (Nat.eqb c 1) with false by (symmetry; apply Nat.eqb_neq; lia).
  cbn [negb]. unfold uint8_int, clip_int, elementwise, Pil.fromarray.
  cbn [shape data skipn].
  do 5 (destruct c as [ | c]; [lia | ]). reflexivity.
Qed.

(** X14 at a stack of 2 frames of 2 x 5 pixels. *)
Lemma X14_witness :
  to_pil (mk_ndarray [2%nat; 2%nat; 5%nat] (repeat 200%Z 20)) = Raises TypeError.
Proof.
  apply (X14_to_pil_refuses_stacks 2 2 5 (repeat 200%Z 20)); lia.
Defined.

(** X15. A stack of one frame is converted like the frame itself: a uint8
    raster of shape (1, R, C), with R and C other than 1 and C other than 3,
    becomes the single-channel image of width C and height R.  With C = 3
    the last axis is taken for the colour channels instead: the image is an
    RGB one of width R and height 1. *)
Theorem X15_to_pil_single_frame :
  forall (r c : nat) (d : list Z),
    r <> 1%nat -> c <> 1%nat ->
    Forall (fun v => (0 <= v <= 255)%Z) d ->
    (c <> 3%nat ->
     to_pil (mk_ndarray [1%nat; r; c] d)
     = Returns (Pil.mk_Image Pil.L (c, r) d) /\
     to_pil (mk_ndarray [1%nat; r; c] d) = to_pil (mk_ndarray [r; c] d)) /\
    (c = 3%nat ->
     to_pil (mk_ndarray [1%nat; r; c] d)
     = Returns (Pil.mk_Image Pil.RGB (r, 1%nat) d)).
Proof.
  intros r c d Hr Hc Hd.
  pose proof (clamp_uint8_id d Hd) as Hclamp.
  split.
  - intro H3.
    assert (E : to_pil (mk_ndarray [1%nat; r; c] d)
                = Returns (Pil.mk_Image Pil.L (c, r) d)).
    { unfold to_pil. cbn [ndim shape length Nat.eqb nth andb].
      replace (Nat.eqb c 3) with false by (symmetry; apply Nat.eqb_neq; lia).
      unfold squeeze. cbn [shape data filter Nat.eqb negb].
      replace (Nat.eqb r 1) with false by (symmetry; apply Nat.eqb_neq; lia).
      replace (Nat.eqb c 1) with false by (symmetry; apply Nat.eqb_neq; lia).
      cbn [negb]. unfold uint8_int, clip_int, elementwise. cbn [shape data].
      rewrite Hclamp. reflexivity. }
    split; [exact E | rewrite E; reflexivity].
  - intros ->. reflexivity.
Qed.

(** X15 at one frame of 2 x 5 pixels. *)
Lemma X15_witness :
  (5%nat <> 3%nat ->
   to_pil (mk_ndarray [1%nat; 2%nat; 5%nat] (repeat 200%Z 10))
   = Returns (Pil.mk_Image Pil.L (5%nat, 2%nat) (repeat 200%Z 10)) /\
   to_pil (mk_ndarray [1%nat; 2%nat; 5%nat] (repeat 200%Z 10))
   = to_pil (mk_ndarray [2%nat; 5%nat] (repeat 200%Z 10))) /\
  (5%nat = 3%nat ->
   to_pil (mk_ndarray [1%nat; 2%nat; 5%nat] (repeat 200%Z 10))
   = Returns (Pil.mk_Image Pil.RGB (2%nat, 1%nat) (repeat 200%Z 10))).
Proof.
  apply (X15_to_pil_single_frame 2 5 (repeat 200%Z 10)).
  - lia.
  - lia.
  - repeat constructor; lia.
Defined.

(** ** The image [main] shows *)

Lemma main_img_8_shape (arr : ndarray Q) (wc ww : Q) (invert : bool) :
  shape (main_img_8 arr wc ww invert) = shape arr.
Proof. destruct invert; reflexivity. Qed.

Lemma main_img_8_in_range (arr : ndarray Q) (wc ww : Q) (invert : bool) :
  Forall (fun v => (0 <= v <= 255)%Z) (data (main_img_8 arr wc ww invert)).
Proof.
  pose proof (raster_in_range arr wc ww) as R.
  destruct invert; [ | exact R].
  unfold main_img_8, rsub_uint8, elementwise. cbn [data].
  apply Forall_forall. intros v Hv.
  apply in_map_iff in Hv. destruct Hv as (u & <- & Hu).
  pose proof (Z.mod_pos_bound (255 - u) 256). lia.
Qed.

(** X16. Showing a 2-D image never fails: for every window, also of zero
    or negative width, and either setting of the inversion, [main] gets a
    single-channel image of the width and height of the pixel array whose
    samples are the raster, all within 0..255.  A 3-D pixel array with
    three channels gives an RGB image in the same way. *)
Theorem X16_main_image_of_2d_array :
  forall (arr : ndarray Q) (wc_slider ww_slider : Q) (invert : bool)
         (h w : nat),
    (shape arr = [h; w] ->
     main_pil_img arr wc_slider ww_slider invert
     = Returns (Pil.mk_Image Pil.L (w, h)
                  (data (main_img_8 arr wc_slider ww_slider invert)))) /\
    (shape arr = [h; w; 3%nat] ->
     main_pil_img arr wc_slider ww_slider invert
     = Returns (Pil.mk_Image Pil.RGB (w, h)
                  (data (main_img_8 arr wc_slider ww_slider invert)))) /\
    Forall (fun v => (0 <= v <= 255)%Z)
           (data (main_img_8 arr wc_slider ww_slider invert)).
Proof.
  intros arr wc ww invert h w.
  pose proof (main_img_8_shape arr wc ww invert) as Hs.
  split; [ | split; [ | apply main_img_8_in_range]]; intro Hshape;
    unfold main_pil_img, to_pil, ndim, Pil.fromarray, ndim;
    rewrite Hs, Hshape; reflexivity.
Qed.

(** X16 at the samples 1..5 laid out as one row of five pixels. *)
Lemma X16_witness :
  (shape (mk_ndarray [1%nat; 5%nat] [1; 2; 3; 4; 5]) = [1%nat; 5%nat] ->
   main_pil_img (mk_ndarray [1%nat; 5%nat] [1; 2; 3; 4; 5]) 3 0 true
   = Returns (Pil.mk_Image Pil.L (5%nat, 1%nat)
                (data (main_img_8 (mk_ndarray [1%nat; 5%nat] [1; 2; 3; 4; 5])
                                  3 0 true)))) /\
  (shape (mk_ndarray [1%nat; 5%nat] [1; 2; 3; 4; 5]) = [1%nat; 5%nat; 3%nat] ->
   main_pil_img (mk_ndarray [1%nat; 5%nat] [1; 2; 3; 4; 5]) 3 0 true
   = Returns (Pil.mk_Image Pil.RGB (5%nat, 1%nat)
                (data (main_img_8 (mk_ndarray [1%nat; 5%nat] [1; 2; 3; 4; 5])
                                  3 0 true)))) /\
  Forall (fun v => (0 <= v <= 255)%Z)
         (data (main_img_8 (mk_ndarray [1%nat; 5%nat] [1; 2; 3; 4; 5]) 3 0 true)).
Proof.
  exact (X16_main_image_of_2d_array
           (mk_ndarray [1%nat; 5%nat] [1; 2; 3; 4; 5]) 3 0 true 1 5).
Defined.
